(** * The vote front end ([vote/app.py]): a shallow embedding and its properties

    The module under study is a Flask application with one route.  Its
    handler [hello] resolves a voter identity from a cookie (or mints one
    from a 64-bit random draw), and on a POST serialises the vote with
    [json.dumps] and appends it to the Redis list ['votes'].

    Python values are modelled as follows.
    - [str] is a list of Unicode code points ([N]); literals are written
      [lit "..."].
    - [int] is [Z]; the non-negative result of [random.getrandbits] is [N].
    - The request's cookies and form are multi-dicts: association lists
      read by first match.
    - The handler runs in a state-and-exception monad over the application
      context [g], the Redis server and the trace of effects. *)

From Stdlib Require Import NArith ZArith List String Ascii Bool Lia.
Import ListNotations.

Local Open Scope N_scope.

(** ** Python strings *)

Definition str := list N.

Definition lit (s : string) : str :=
  List.map N_of_ascii (list_ascii_of_string s).

Fixpoint str_eqb (a b : str) : bool :=
  match a, b with
  | [], [] => true
  | x :: a', y :: b' => (x =? y) && str_eqb a' b'
  | _, _ => false
  end.

(** Truthiness of a [str]: the empty string is falsy. *)
Definition truthy (s : str) : bool :=
  match s with [] => false | _ :: _ => true end.

(** A multi-dict (or plain dict) keyed by strings, read by first match. *)
Definition Dict := list (str * str).

Fixpoint dict_get (k : str) (d : Dict) : option str :=
  match d with
  | [] => None
  | (k', v) :: d' => if str_eqb k k' then Some v else dict_get k d'
  end.

(** ** [hex], slicing and the minted token *)

(** The lowercase hexadecimal digit of a value below 16. *)
Definition hexdigit (d : N) : N := if d <? 10 then 48 + d else 87 + d.

Fixpoint hex_digits_fuel (fuel : nat) (n : N) (acc : str) : str :=
  match fuel with
  | O => acc
  | S f =>
      let acc' := hexdigit (n mod 16) :: acc in
      if n / 16 =? 0 then acc' else hex_digits_fuel f (n / 16) acc'
  end.

(** The digits of [hex(n)] after the ['0x'] prefix: no padding, a single
    ['0'] for zero.  A number has no more hex digits than bits. *)
Definition hex_digits (n : N) : str :=
  hex_digits_fuel (S (N.to_nat (N.log2 n))) n [].

(** [hex(n)] for a non-negative [n]. *)
Definition py_hex (n : N) : str := lit "0x" ++ hex_digits n.

(** A slice bound as Python normalises it against the length: a negative
    bound counts from the end, and the result is clamped to [0..len]. *)
Definition slice_bound (len i : Z) : Z :=
  let j := if (i <? 0)%Z then (i + len)%Z else i in
  Z.max 0 (Z.min len j).

(** [s[start:stop]] *)
Definition py_slice (s : str) (start stop : Z) : str :=
  let len := Z.of_nat (List.length s) in
  let a := slice_bound len start in
  let b := slice_bound len stop in
  firstn (Z.to_nat (b - a)) (skipn (Z.to_nat a) s).

(** [hex(random.getrandbits(64))[2:-1]], as a function of the draw. *)
Definition mint_token (draw : N) : str := py_slice (py_hex draw) 2 (-1).

(** Lines 44-46 of [hello]: the identity resolver. *)
Definition resolve_voter_id (cookies : Dict) (draw : N) : str :=
  match dict_get (lit "voter_id") cookies with
  | Some t => if truthy t then t else mint_token draw
  | None => mint_token draw
  end.

(** ** [json.dumps] on a dict of strings (default [ensure_ascii=True]) *)

(** [format(n, '04x')] for [n < 0x10000], the only range it is called on. *)
Definition hex4 (n : N) : str :=
  [hexdigit (n / 4096 mod 16); hexdigit (n / 256 mod 16);
   hexdigit (n / 16 mod 16); hexdigit (n mod 16)].

(** A backslash, a [u] and four hex digits. *)
Definition u_escape (n : N) : str := 92 :: 117 :: hex4 n.

(** The replacement of one code point by [encode_basestring_ascii]:
    the quote, the backslash and the five short escapes, printable ASCII
    as it is, everything else as one [\uXXXX] or a surrogate pair. *)
Definition escape_char (c : N) : str :=
  if c =? 34 then [92; 34]
  else if c =? 92 then [92; 92]
  else if c =? 10 then [92; 110]
  else if c =? 13 then [92; 114]
  else if c =? 9 then [92; 116]
  else if c =? 12 then [92; 102]
  else if c =? 8 then [92; 98]
  else if (32 <=? c) && (c <=? 126) then [c]
  else if c <? 65536 then u_escape c
  else
    let n := c - 65536 in
    u_escape (N.lor 55296 (N.land (N.shiftr n 10) 1023))
      ++ u_escape (N.lor 56320 (N.land n 1023)).

Definition json_dumps_str (s : str) : str :=
  34 :: flat_map escape_char s ++ [34].

Definition json_item (kv : str * str) : str :=
  json_dumps_str (fst kv) ++ lit ": " ++ json_dumps_str (snd kv).

Fixpoint json_join (items : list str) : str :=
  match items with
  | [] => []
  | [x] => x
  | x :: rest => x ++ lit ", " ++ json_join rest
  end.

(** [json.dumps(d)] for a dict [d] whose keys and values are strings,
    given as its items in insertion order. *)
Definition json_dumps_dict (d : Dict) : str :=
  123 :: json_join (List.map json_item d) ++ [125].

(** Line 54: [json.dumps({'voter_id': voter_id, 'vote': vote})]. *)
Definition vote_payload (voter_id vote : str) : str :=
  json_dumps_dict [(lit "voter_id", voter_id); (lit "vote", vote)].

(** ** [json.loads], on objects whose members are strings

    The consumer's side of the wire format.  The scanner follows the
    standard library's [py_scanstring] (strict mode) and [JSONObject];
    documents with other kinds of values are outside this decoder. *)

Definition hexval (c : N) : option N :=
  if (48 <=? c) && (c <=? 57) then Some (c - 48)
  else if (97 <=? c) && (c <=? 102) then Some (c - 87)
  else if (65 <=? c) && (c <=? 70) then Some (c - 55)
  else None.

Definition decode_hex4 (a b c d : N) : option N :=
  match hexval a, hexval b, hexval c, hexval d with
  | Some x, Some y, Some z, Some w => Some (((x * 16 + y) * 16 + z) * 16 + w)
  | _, _, _, _ => None
  end.

(** The decoder's table of one-letter escapes. *)
Definition backslash (e : N) : option N :=
  if e =? 34 then Some 34
  else if e =? 92 then Some 92
  else if e =? 47 then Some 47
  else if e =? 98 then Some 8
  else if e =? 102 then Some 12
  else if e =? 110 then Some 10
  else if e =? 114 then Some 13
  else if e =? 116 then Some 9
  else None.

Definition is_high_surrogate (u : N) : bool := (55296 <=? u) && (u <=? 56319).
Definition is_low_surrogate (u : N) : bool := (56320 <=? u) && (u <=? 57343).

Definition join_surrogates (hi lo : N) : N :=
  65536 + N.lor (N.shiftl (hi - 55296) 10) (lo - 56320).

Definition consr (c : N) (r : option (str * str)) : option (str * str) :=
  match r with
  | Some (s, rest) => Some (c :: s, rest)
  | None => None
  end.

(** The content of a JSON string, read from just after its opening quote:
    the decoded string and what follows the closing quote. *)
Fixpoint scanstring (s : str) : option (str * str) :=
  match s with
  | [] => None
  | c :: r1 =>
      if c =? 34 then Some ([], r1)
      else if c =? 92 then
        match r1 with
        | [] => None
        | e :: r2 =>
            if e =? 117 then
              match r2 with
              | a :: b :: c2 :: d :: r3 =>
                  match decode_hex4 a b c2 d with
                  | None => None
                  | Some uni =>
                      let plain := consr uni (scanstring r3) in
                      if is_high_surrogate uni then
                        match r3 with
                        | b1 :: u1 :: a' :: b' :: c' :: d' :: r4 =>
                            if (b1 =? 92) && (u1 =? 117) then
                              match decode_hex4 a' b' c' d' with
                              | None => None
                              | Some uni2 =>
                                  if is_low_surrogate uni2
                                  then consr (join_surrogates uni uni2)
                                             (scanstring r4)
                                  else plain
                              end
                            else plain
                        | _ => plain
                        end
                      else plain
                  end
              | _ => None
              end
            else
              match backslash e with
              | Some ch => consr ch (scanstring r2)
              | None => None
              end
        end
      else if c <? 32 then None
      else consr c (scanstring r1)
  end.

Definition is_json_ws (c : N) : bool :=
  (c =? 32) || (c =? 9) || (c =? 10) || (c =? 13).

Fixpoint skip_ws (s : str) : str :=
  match s with
  | c :: r => if is_json_ws c then skip_ws r else s
  | [] => []
  end.

(** The members of an object, read from the opening quote of a key up to
    and including the closing brace.  Every round consumes input, so the
    length of the input is fuel enough. *)
Fixpoint scan_members (fuel : nat) (s : str) : option (Dict * str) :=
  match fuel with
  | O => None
  | S f =>
      match s with
      | q :: r0 =>
          if q =? 34 then
            match scanstring r0 with
            | Some (k, r1) =>
                match skip_ws r1 with
                | colon :: r2 =>
                    if colon =? 58 then
                      match skip_ws r2 with
                      | q2 :: r3 =>
                          if q2 =? 34 then
                            match scanstring r3 with
                            | Some (v, r4) =>
                                match skip_ws r4 with
                                | sep :: r5 =>
                                    if sep =? 125 then Some ([(k, v)], r5)
                                    else if sep =? 44 then
                                      match scan_members f (skip_ws r5) with
                                      | Some (d, rest) => Some ((k, v) :: d, rest)
                                      | None => None
                                      end
                                    else None
                                | [] => None
                                end
                            | None => None
                            end
                          else None
                      | [] => None
                      end
                    else None
                | [] => None
                end
            | None => None
            end
          else None
      | [] => None
      end
  end.

(** [json.loads(s)] where the document is an object of strings: its
    members in document order.  Nothing but whitespace may follow. *)
Definition json_loads (s : str) : option Dict :=
  match skip_ws s with
  | brace :: r =>
      if brace =? 123 then
        let r' := skip_ws r in
        let parsed :=
          match r' with
          | c :: r'' => if c =? 125 then Some ([], r'')
                        else scan_members (List.length r') r'
          | [] => None
          end in
        match parsed with
        | Some (d, rest) =>
            match skip_ws rest with
            | [] => Some d
            | _ :: _ => None
            end
        | None => None
        end
      else None
  | [] => None
  end.

(** Reading a field of the decoded object: as in a Python dict, the last
    member with that name is the one that counts. *)
Fixpoint obj_get (k : str) (d : Dict) : option str :=
  match d with
  | [] => None
  | (k', v) :: d' =>
      match obj_get k d' with
      | Some v' => Some v'
      | None => if str_eqb k k' then Some v else None
      end
  end.

(** Text decoded from UTF-8 holds Unicode scalar values only: no
    surrogates, nothing above U+10FFFF.  Cookies and form fields reach the
    handler decoded this way. *)
Definition is_scalar (c : N) : bool :=
  (c <? 55296) || ((57343 <? c) && (c <? 1114112)).

Definition well_formed (s : str) : bool := forallb is_scalar s.

(** ** [int(s)] and the other conversions of the configuration *)

(** The white space [int] skips around a number: the ASCII blanks and the
    Unicode spaces above ASCII. *)
Definition is_space (c : N) : bool :=
  ((9 <=? c) && (c <=? 13)) || (c =? 32)
  || (c =? 133) || (c =? 160) || (c =? 5760)
  || ((8192 <=? c) && (c <=? 8202))
  || (c =? 8232) || (c =? 8233) || (c =? 8239) || (c =? 8287) || (c =? 12288).

Fixpoint lstrip (s : str) : str :=
  match s with
  | c :: r => if is_space c then lstrip r else s
  | [] => []
  end.

(** Lowercasing of the ASCII letters.  [str.lower] also maps letters
    outside ASCII, but none of them onto a letter or digit of ['1'],
    ['true'] or ['yes'], the only strings the result is compared with. *)
Definition lower_char (c : N) : N :=
  if (65 <=? c) && (c <=? 90) then c + 32 else c.

Definition lower (s : str) : str := List.map lower_char s.

Definition str_in (s : str) (l : list str) : bool :=
  existsb (str_eqb s) l.

(** The interpreter's limit on the digits of a decimal conversion, as it
    is unless the interpreter is told otherwise. *)
Definition max_str_digits : N := 4300.

Section PyInt.

(** The decimal value of a code point above ASCII, where the Unicode
    database gives it one (category Nd); the table itself belongs to the
    interpreter. *)
Variable unicode_decimal : N -> option N.

Definition digit_of (c : N) : option N :=
  if (48 <=? c) && (c <=? 57) then Some (c - 48)
  else if (c <? 127) || is_space c then None
  else unicode_decimal c.

(** Digits, single underscores between digits, then white space to the
    end.  [after_digit] tells whether the previous character was a
    digit. *)
Fixpoint int_digits (s : str) (acc : N) (after_digit : bool) : option N :=
  match s with
  | [] => if after_digit then Some acc else None
  | c :: r =>
      match digit_of c with
      | Some d => int_digits r (10 * acc + d) true
      | None =>
          if after_digit then
            if c =? 95 then int_digits r acc false
            else if is_space c then
              match lstrip r with [] => Some acc | _ :: _ => None end
            else None
          else None
      end
  end.

(** How many digits a string holds. *)
Fixpoint count_digits (s : str) : N :=
  match s with
  | [] => 0
  | c :: r =>
      match digit_of c with
      | Some _ => N.succ (count_digits r)
      | None => count_digits r
      end
  end.

(** The sign and the digits of [int(s)], base ten. *)
Definition int_literal (s : str) : option Z :=
  match lstrip s with
  | [] => None
  | c :: r =>
      if c =? 45 then option_map (fun n => (- Z.of_N n)%Z) (int_digits r 0 false)
      else if c =? 43 then option_map Z.of_N (int_digits r 0 false)
      else option_map Z.of_N (int_digits (c :: r) 0 false)
  end.

(** [int(s)], base ten; [None] stands for [ValueError].  A number of more
    than [max_str_digits] digits is refused, leading zeros counted, signs,
    blanks and underscores not. *)
Definition py_int (s : str) : option Z :=
  match int_literal s with
  | Some z => if count_digits s <=? max_str_digits then Some z else None
  | None => None
  end.

End PyInt.

(** ** Exceptions and results *)

Inductive Exn :=
| ValueError
| AttributeError
| BadRequestKeyError (key : str)
| RedisConnectionError
| RedisTimeoutError.

Inductive Res (A : Type) :=
| Ok (a : A)
| Raise (e : Exn).

Arguments Ok {A} a.
Arguments Raise {A} e.

(** ** Module-level configuration (lines 9-17) *)

Record Config := mkConfig {
  REDIS_HOST : str;
  REDIS_PORT : Z;
  REDIS_PASSWORD : option str;
  REDIS_SSL : bool;
  option_a : str;
  option_b : str;
  hostname : str
}.

(** [os.getenv(k, default)] *)
Definition getenv (env : Dict) (k default : str) : str :=
  match dict_get k env with
  | Some v => v
  | None => default
  end.

(** [os.getenv(k) or None] *)
Definition getenv_or_none (env : Dict) (k : str) : option str :=
  match dict_get k env with
  | Some v => if truthy v then Some v else None
  | None => None
  end.

Section Startup.

Variable unicode_decimal : N -> option N.

(** The module's top-level assignments, in order; [host] is what
    [socket.gethostname()] returns.  The one statement that can raise is
    the conversion of the port. *)
Definition load_config (env : Dict) (host : str) : Res Config :=
  let redis_host := getenv env (lit "REDIS_HOST") (lit "redis") in
  match py_int unicode_decimal (getenv env (lit "REDIS_PORT") (lit "6379")) with
  | None => Raise ValueError
  | Some port =>
      Ok {| REDIS_HOST := redis_host;
            REDIS_PORT := port;
            REDIS_PASSWORD := getenv_or_none env (lit "REDIS_PASSWORD");
            REDIS_SSL :=
              str_in (lower (getenv env (lit "REDIS_SSL") (lit "false")))
                     [lit "1"; lit "true"; lit "yes"];
            option_a := getenv env (lit "OPTION_A") (lit "Cats");
            option_b := getenv env (lit "OPTION_B") (lit "Dogs");
            hostname := host |}
  end.

End Startup.

(** ** The Redis client and server *)

(** The keyword arguments of [Redis(...)]; [password] and [ssl] are present
    only when the configuration asks for them. *)
Record RedisKwargs := mkKwargs {
  kw_host : str;
  kw_port : Z;
  kw_db : Z;
  kw_socket_timeout : Z;
  kw_password : option str;
  kw_ssl : option bool
}.

(** A client handle. *)
Record Redis := mkRedis { connection_kwargs : RedisKwargs }.

(** What the server does with a command: serve it, refuse the connection,
    or stay silent until the socket timeout expires. *)
Inductive ServerStatus := Up | Refusing | Silent.

Record RedisServer := mkServer {
  status : ServerStatus;
  lists : list (str * list str)
}.

(** The list stored under a key; a missing key is an empty list. *)
Fixpoint lrange (key : str) (db : list (str * list str)) : list str :=
  match db with
  | [] => []
  | (k, l) :: db' => if str_eqb key k then l else lrange key db'
  end.

Fixpoint rpush_db (key value : str) (db : list (str * list str))
  : list (str * list str) :=
  match db with
  | [] => [(key, [value])]
  | (k, l) :: db' =>
      if str_eqb key k then (k, l ++ [value]) :: db'
      else (k, l) :: rpush_db key value db'
  end.

(** ** Effects *)

Inductive LogArg :=
| ArgStr (s : str)
| ArgInt (z : Z)
| ArgBool (b : bool).

(** What the handler does to the outside, in order. *)
Inductive Event :=
| RedisConstructed (kw : RedisKwargs)
| LogInfo (msg : str) (args : list LogArg)
| RpushCalled (key value : str).

(** The application context [g] (its one attribute), the Redis server and
    the trace of effects so far. *)
Record State := mkState {
  g_redis : option Redis;
  server : RedisServer;
  trace : list Event
}.

Definition M (A : Type) : Type := State -> Res A * State.

Definition ret {A} (a : A) : M A := fun st => (Ok a, st).

Definition bind {A B} (m : M A) (k : A -> M B) : M B :=
  fun st =>
    match m st with
    | (Ok a, st') => k a st'
    | (Raise e, st') => (Raise e, st')
    end.

Definition raise {A} (e : Exn) : M A := fun st => (Raise e, st).

Notation "x <- m ;; k" := (bind m (fun x => k))
  (at level 61, m at next level, right associativity).
Notation "m ;;; k" := (bind m (fun _ => k))
  (at level 61, right associativity).

Definition emit (e : Event) : M unit :=
  fun st =>
    (Ok tt, {| g_redis := g_redis st; server := server st;
               trace := trace st ++ [e] |}).

(** [hasattr(g, 'redis')] *)
Definition hasattr_g_redis : M bool :=
  fun st => (Ok (match g_redis st with Some _ => true | None => false end), st).

(** [g.redis = h] *)
Definition set_g_redis (h : Redis) : M unit :=
  fun st =>
    (Ok tt, {| g_redis := Some h; server := server st; trace := trace st |}).

(** [g.redis] *)
Definition get_g_redis : M Redis :=
  fun st =>
    match g_redis st with
    | Some h => (Ok h, st)
    | None => (Raise AttributeError, st)
    end.

(** The constructor [Redis] applied to the keyword arguments: it builds
    the handle; no connection is opened yet. *)
Definition Redis_new (kw : RedisKwargs) : M Redis :=
  emit (RedisConstructed kw) ;;; ret (mkRedis kw).

(** [app.logger.info(msg, *args)] *)
Definition logger_info (msg : str) (args : list LogArg) : M unit :=
  emit (LogInfo msg args).

(** [client.rpush(key, value)]: one command sent to the server.  A served
    command appends and returns the new length; a refused connection and a
    timeout raise, and the list is as it was. *)
Definition rpush (client : Redis) (key value : str) : M N :=
  emit (RpushCalled key value) ;;;
  fun st =>
    match status (server st) with
    | Up =>
        let db := rpush_db key value (lists (server st)) in
        (Ok (N.of_nat (List.length (lrange key db))),
         {| g_redis := g_redis st;
            server := {| status := Up; lists := db |};
            trace := trace st |})
    | Refusing => (Raise RedisConnectionError, st)
    | Silent => (Raise RedisTimeoutError, st)
    end.

(** ** [get_redis] (lines 25-40) *)

Definition redis_kwargs (cfg : Config) : RedisKwargs :=
  {| kw_host := REDIS_HOST cfg;
     kw_port := REDIS_PORT cfg;
     kw_db := 0;
     kw_socket_timeout := 5;
     kw_password :=
       match REDIS_PASSWORD cfg with
       | Some p => if truthy p then Some p else None
       | None => None
       end;
     kw_ssl := if REDIS_SSL cfg then Some true else None |}.

Definition get_redis (cfg : Config) : M Redis :=
  has <- hasattr_g_redis ;;
  (if negb has then
     h <- Redis_new (redis_kwargs cfg) ;;
     set_g_redis h ;;;
     logger_info (lit "Initialized Redis client host=%s port=%s ssl=%s")
                 [ArgStr (REDIS_HOST cfg); ArgInt (REDIS_PORT cfg);
                  ArgBool (REDIS_SSL cfg)]
   else ret tt) ;;;
  get_g_redis.

(** ** Requests and responses *)

(** The route accepts these two methods. *)
Inductive Method := GET | POST.

Record Request := mkRequest {
  method : Method;
  cookies : Dict;
  form : Dict
}.

(** [request.form[key]]: the first value of the field, or the exception
    the framework answers with status 400. *)
Definition form_getitem (req : Request) (key : str) : M str :=
  match dict_get key (form req) with
  | Some v => ret v
  | None => raise (BadRequestKeyError key)
  end.

(** The template and the variables it is rendered with; rendering itself is
    the view's business. *)
Record Page := mkPage {
  template : str;
  page_option_a : str;
  page_option_b : str;
  page_hostname : str;
  page_vote : option str
}.

Inductive Body :=
| Rendered (p : Page)
| ErrorPage.

Record Response := mkResponse {
  status_code : N;
  body : Body;
  set_cookies : list (str * str)
}.

Definition make_response (p : Page) : Response :=
  {| status_code := 200; body := Rendered p; set_cookies := [] |}.

Definition set_cookie (resp : Response) (key value : str) : Response :=
  {| status_code := status_code resp;
     body := body resp;
     set_cookies := set_cookies resp ++ [(key, value)] |}.

(** ** [hello] (lines 42-65)

    [draw] is what [random.getrandbits(64)] returns if it is called. *)
Definition hello (cfg : Config) (req : Request) (draw : N) : M Response :=
  let voter_id := resolve_voter_id (cookies req) draw in
  vote <-
    (match method req with
     | POST =>
         redis <- get_redis cfg ;;
         vote <- form_getitem req (lit "vote") ;;
         logger_info (lit "Received vote for %s") [ArgStr vote] ;;;
         let data := vote_payload voter_id vote in
         rpush redis (lit "votes") data ;;;
         ret (Some vote)
     | GET => ret None
     end) ;;
  let resp :=
    make_response
      {| template := lit "index.html";
         page_option_a := option_a cfg;
         page_option_b := option_b cfg;
         page_hostname := hostname cfg;
         page_vote := vote |} in
  ret (set_cookie resp (lit "voter_id") voter_id).

(** ** The framework around the handler *)

(** The application's debug flag as the launcher of lines 68-69 sets it,
    [app.run(..., debug=True)]; it is off when a WSGI server imports the
    module instead. *)
Definition main_debug : bool := true.

(** The response for an exception that leaves the view.  A key missing
    from the form is a bad request, unless the application is in debug
    mode: the framework then lets the key error through as any other
    exception.  Anything else is an internal server error.  Such a
    response is the framework's own; the view's cookie is not on it. *)
Definition error_response (debug : bool) (e : Exn) : Response :=
  match e with
  | BadRequestKeyError _ =>
      {| status_code := if debug then 500 else 400;
         body := ErrorPage; set_cookies := [] |}
  | _ => {| status_code := 500; body := ErrorPage; set_cookies := [] |}
  end.

Definition dispatch (debug : bool) (cfg : Config) (req : Request) (draw : N)
  : State -> Response * State :=
  fun st =>
    match hello cfg req draw st with
    | (Ok resp, st') => (resp, st')
    | (Raise e, st') => (error_response debug e, st')
    end.

(** One request as the environment presents it: the request, the random
    draw on offer, and the state the server is in when it arrives. *)
Record Arrival := mkArrival {
  arr_request : Request;
  arr_draw : N;
  arr_server : ServerStatus
}.

Definition set_status (s : ServerStatus) (st : State) : State :=
  {| g_redis := g_redis st;
     server := {| status := s; lists := lists (server st) |};
     trace := trace st |}.

(** An application context as the framework pushes it at the start of a
    request and discards it at the end: [g] without attributes. *)
Definition fresh_context (st : State) : State :=
  {| g_redis := None; server := server st; trace := trace st |}.

(** One request in a context of its own. *)
Definition handle_request (debug : bool) (cfg : Config) (a : Arrival)
  (st : State) : Response * State :=
  let '(resp, st') :=
    dispatch debug cfg (arr_request a) (arr_draw a)
             (set_status (arr_server a) (fresh_context st)) in
  (resp, fresh_context st').

(** The requests of a process, one after the other, each in its own
    application context. *)
Fixpoint serve (debug : bool) (cfg : Config) (arrivals : list Arrival)
  (st : State) : list Response * State :=
  match arrivals with
  | [] => ([], st)
  | a :: rest =>
      let '(resp, st1) := handle_request debug cfg a st in
      let '(resps, st2) := serve debug cfg rest st1 in
      (resp :: resps, st2)
  end.

(** ** The process *)

Inductive Process :=
| Crashed (e : Exn)
| Serving (cfg : Config).

Definition startup (unicode_decimal : N -> option N) (env : Dict) (host : str)
  : Process :=
  match load_config unicode_decimal env host with
  | Ok cfg => Serving cfg
  | Raise e => Crashed e
  end.

(** A fresh context in front of a server holding [db]. *)
Definition initial_state (db : list (str * list str)) : State :=
  {| g_redis := None; server := {| status := Up; lists := db |}; trace := [] |}.


(** ** Observations on traces *)

Fixpoint rpush_calls (tr : list Event) : list (str * str) :=
  match tr with
  | [] => []
  | RpushCalled k v :: tr' => (k, v) :: rpush_calls tr'
  | _ :: tr' => rpush_calls tr'
  end.

Fixpoint constructions (tr : list Event) : nat :=
  match tr with
  | [] => O
  | RedisConstructed _ :: tr' => S (constructions tr')
  | _ :: tr' => constructions tr'
  end.

Definition is_post (a : Arrival) : bool :=
  match method (arr_request a) with POST => true | GET => false end.

(** The value of a string of hex digits, most significant first. *)
Fixpoint hex_value (s : str) (acc : N) : option N :=
  match s with
  | [] => Some acc
  | c :: r =>
      match hexval c with
      | Some d => hex_value r (16 * acc + d)
      | None => None
      end
  end.

Definition is_lower_hex (c : N) : bool :=
  ((48 <=? c) && (c <=? 57)) || ((97 <=? c) && (c <=? 102)).

(** The events from the end of [st]'s trace to the end of [st']'s. *)
Definition events_since (st st' : State) : list Event :=
  skipn (List.length (trace st)) (trace st').

(** ** The handler's paths, spelled out *)

(** What a first call of [get_redis] adds to the trace. *)
Definition init_events (cfg : Config) : list Event :=
  [RedisConstructed (redis_kwargs cfg);
   LogInfo (lit "Initialized Redis client host=%s port=%s ssl=%s")
           [ArgStr (REDIS_HOST cfg); ArgInt (REDIS_PORT cfg);
            ArgBool (REDIS_SSL cfg)]].

(** The state [get_redis] leaves. *)
Definition after_get_redis (cfg : Config) (st : State) : State :=
  match g_redis st with
  | Some _ => st
  | None =>
      {| g_redis := Some (mkRedis (redis_kwargs cfg));
         server := server st;
         trace := trace st ++ init_events cfg |}
  end.

(** What a POST with a vote adds after [get_redis]. *)
Definition vote_events (voter_id vote : str) : list Event :=
  [LogInfo (lit "Received vote for %s") [ArgStr vote];
   RpushCalled (lit "votes") (vote_payload voter_id vote)].

(** The page the handler returns. *)
Definition page_response (cfg : Config) (voter_id : str) (vote : option str)
  : Response :=
  {| status_code := 200;
     body := Rendered {| template := lit "index.html";
                         page_option_a := option_a cfg;
                         page_option_b := option_b cfg;
                         page_hostname := hostname cfg;
                         page_vote := vote |};
     set_cookies := [(lit "voter_id", voter_id)] |}.

(** Whether the handler reaches its [return]: always on a GET; on a POST
    when the form has a ['vote'] field and the server takes the append. *)
Definition returns_page (req : Request) (st : State) : bool :=
  match method req with
  | GET => true
  | POST =>
      match dict_get (lit "vote") (form req), status (server st) with
      | Some _, Up => true
      | _, _ => false
      end
  end.

(** Every value of the request's cookies and form is well-formed text. *)
Definition well_formed_request (req : Request) : bool :=
  forallb (fun kv => well_formed (snd kv)) (cookies req)
  && forallb (fun kv => well_formed (snd kv)) (form req).

(** Every key and value of a dict is well-formed text. *)
Definition well_formed_dict (d : Dict) : bool :=
  forallb (fun kv => well_formed (fst kv) && well_formed (snd kv)) d.

(** Whether the request brings a usable identity token: a ['voter_id']
    cookie that is not empty. *)
Definition has_token (req : Request) : bool :=
  match dict_get (lit "voter_id") (cookies req) with
  | Some t => truthy t
  | None => false
  end.

(** ** Observations on sequences of requests *)

(** The payload a request tries to append: it is a POST and its form has a
    ['vote'] field. *)
Definition attempted_payload (a : Arrival) : option str :=
  match method (arr_request a) with
  | GET => None
  | POST =>
      match dict_get (lit "vote") (form (arr_request a)) with
      | Some v =>
          Some (vote_payload
                  (resolve_voter_id (cookies (arr_request a)) (arr_draw a)) v)
      | None => None
      end
  end.

(** The payload a request gets stored: the attempt meets a server that
    takes it. *)
Definition stored_payload (a : Arrival) : option str :=
  match arr_server a with
  | Up => attempted_payload a
  | Refusing | Silent => None
  end.

Definition collect (f : Arrival -> option str) (arrivals : list Arrival)
  : list str :=
  flat_map (fun a => match f a with Some p => [p] | None => [] end) arrivals.

(** The records written to the log, in order. *)
Fixpoint log_records (tr : list Event) : list (str * list LogArg) :=
  match tr with
  | [] => []
  | LogInfo msg args :: tr' => (msg, args) :: log_records tr'
  | _ :: tr' => log_records tr'
  end.


(** Printable ASCII: from the space to the tilde. *)
Definition is_printable (c : N) : bool := (32 <=? c) && (c <=? 126).

(** ** Sample inputs *)

Definition sample_config : Config :=
  {| REDIS_HOST := lit "redis"; REDIS_PORT := 6379%Z;
     REDIS_PASSWORD := None; REDIS_SSL := false;
     option_a := lit "Cats"; option_b := lit "Dogs";
     hostname := lit "vote-1" |}.

(** No table of digits above ASCII. *)
Definition ascii_only : N -> option N := fun _ => None.

Definition get_request (cookies : Dict) : Request :=
  {| method := GET; cookies := cookies; form := [] |}.

Definition post_request (cookies form : Dict) : Request :=
  {| method := POST; cookies := cookies; form := form |}.

Arguments lit : simpl never.

(** * Properties *)

(** ** The handler, path by path *)

Lemma get_redis_eq (cfg : Config) (st : State) :
  get_redis cfg st =
  (Ok (match g_redis st with
       | Some h => h
       | None => mkRedis (redis_kwargs cfg)
       end),
   after_get_redis cfg st).
Proof.
  unfold get_redis, after_get_redis, bind, hasattr_g_redis, get_g_redis.
  destruct (g_redis st) as [h|] eqn:Hg; simpl.
  - rewrite Hg. reflexivity.
  - unfold init_events. rewrite <- app_assoc. reflexivity.
Qed.

Lemma hello_get (cfg : Config) (req : Request) (draw : N) (st : State) :
  method req = GET ->
  hello cfg req draw st =
  (Ok (page_response cfg (resolve_voter_id (cookies req) draw) None), st).
Proof.
  intros Hm. unfold hello, bind. rewrite Hm. reflexivity.
Qed.

Lemma hello_post_missing (cfg : Config) (req : Request) (draw : N) (st : State) :
  method req = POST ->
  dict_get (lit "vote") (form req) = None ->
  hello cfg req draw st =
  (Raise (BadRequestKeyError (lit "vote")), after_get_redis cfg st).
Proof.
  intros Hm Hv. unfold hello. rewrite Hm. unfold bind at 1 2.
  rewrite get_redis_eq. unfold bind, form_getitem. rewrite Hv. reflexivity.
Qed.

Lemma hello_post (cfg : Config) (req : Request) (draw : N) (st : State) (v : str) :
  method req = POST ->
  dict_get (lit "vote") (form req) = Some v ->
  let vid := resolve_voter_id (cookies req) draw in
  let st1 := after_get_redis cfg st in
  let tr := trace st1 ++ vote_events vid v in
  hello cfg req draw st =
  match status (server st) with
  | Up =>
      (Ok (page_response cfg vid (Some v)),
       {| g_redis := g_redis st1;
          server := {| status := Up;
                       lists := rpush_db (lit "votes") (vote_payload vid v)
                                         (lists (server st)) |};
          trace := tr |})
  | Refusing =>
      (Raise RedisConnectionError,
       {| g_redis := g_redis st1; server := server st; trace := tr |})
  | Silent =>
      (Raise RedisTimeoutError,
       {| g_redis := g_redis st1; server := server st; trace := tr |})
  end.
Proof.
  intros Hm Hv vid st1 tr. unfold hello. rewrite Hm. unfold bind at 1 2.
  rewrite get_redis_eq. fold st1. unfold bind at 1, form_getitem. rewrite Hv.
  assert (Hs : server st1 = server st).
  { unfold st1, after_get_redis. destruct (g_redis st); reflexivity. }
  cbv [bind ret logger_info rpush emit]; simpl.
  rewrite Hs. unfold tr, vote_events. fold vid.
  rewrite <- app_assoc; simpl.
  destruct (status (server st)); reflexivity.
Qed.

(** ** Traces *)

Lemma events_since_app (st st' : State) (delta : list Event) :
  trace st' = trace st ++ delta -> events_since st st' = delta.
Proof.
  intros H. unfold events_since. rewrite H.
  rewrite skipn_app, skipn_all, Nat.sub_diag. reflexivity.
Qed.

Lemma events_since_refl (st : State) : events_since st st = [].
Proof. apply events_since_app. now rewrite app_nil_r. Qed.

Lemma rpush_calls_app (a b : list Event) :
  rpush_calls (a ++ b) = rpush_calls a ++ rpush_calls b.
Proof.
  induction a as [|e a IH]; simpl; [reflexivity|].
  destruct e; simpl; now rewrite IH.
Qed.

Lemma constructions_app (a b : list Event) :
  constructions (a ++ b) = (constructions a + constructions b)%nat.
Proof.
  induction a as [|e a IH]; simpl; [reflexivity|].
  destruct e; simpl; now rewrite IH.
Qed.

Lemma after_get_redis_trace (cfg : Config) (st : State) :
  trace (after_get_redis cfg st) =
  trace st ++ match g_redis st with Some _ => [] | None => init_events cfg end.
Proof.
  unfold after_get_redis. destruct (g_redis st); simpl; [|reflexivity].
  now rewrite app_nil_r.
Qed.

Lemma after_get_redis_server (cfg : Config) (st : State) :
  server (after_get_redis cfg st) = server st.
Proof. unfold after_get_redis. destruct (g_redis st); reflexivity. Qed.

Lemma after_get_redis_handle (cfg : Config) (st : State) :
  g_redis (after_get_redis cfg st) =
  Some (match g_redis st with
        | Some h => h
        | None => mkRedis (redis_kwargs cfg)
        end).
Proof.
  unfold after_get_redis. destruct (g_redis st) eqn:Hg; simpl; [|reflexivity].
  exact Hg.
Qed.

Lemma rpush_calls_init (cfg : Config) (st : State) :
  rpush_calls (match g_redis st with Some _ => [] | None => init_events cfg end)
  = [].
Proof. destruct (g_redis st); reflexivity. Qed.

(** The state a POST with a vote leaves, whatever the server does. *)
Lemma hello_post_trace (cfg : Config) (req : Request) (draw : N) (st : State)
  (v : str) :
  method req = POST ->
  dict_get (lit "vote") (form req) = Some v ->
  trace (snd (hello cfg req draw st)) =
  trace st
    ++ match g_redis st with Some _ => [] | None => init_events cfg end
    ++ vote_events (resolve_voter_id (cookies req) draw) v.
Proof.
  intros Hm Hv. rewrite (hello_post cfg req draw st v Hm Hv).
  rewrite app_assoc, <- after_get_redis_trace.
  destruct (status (server st)); reflexivity.
Qed.

Lemma hello_post_calls (cfg : Config) (req : Request) (draw : N) (st : State)
  (v : str) :
  method req = POST ->
  dict_get (lit "vote") (form req) = Some v ->
  rpush_calls (events_since st (snd (hello cfg req draw st))) =
  [(lit "votes", vote_payload (resolve_voter_id (cookies req) draw) v)].
Proof.
  intros Hm Hv.
  rewrite (events_since_app _ _ _ (hello_post_trace cfg req draw st v Hm Hv)).
  rewrite rpush_calls_app, rpush_calls_init. reflexivity.
Qed.

Lemma dispatch_snd (debug : bool) (cfg : Config) (req : Request) (draw : N) (st : State) :
  snd (dispatch debug cfg req draw st) = snd (hello cfg req draw st).
Proof.
  unfold dispatch. destruct (hello cfg req draw st) as [[r|e] st']; reflexivity.
Qed.

Lemma dict_get_well_formed (k v : str) (d : Dict) :
  forallb (fun kv => well_formed (snd kv)) d = true ->
  dict_get k d = Some v -> well_formed v = true.
Proof.
  induction d as [|[k' v'] d IH]; simpl; [discriminate|].
  intros H. apply andb_prop in H. destruct H as [Hv Hd].
  destruct (str_eqb k k').
  - intros E. injection E as <-. exact Hv.
  - now apply IH.
Qed.

Lemma str_eqb_refl (s : str) : str_eqb s s = true.
Proof.
  induction s as [|c s IH]; simpl; [reflexivity|].
  now rewrite N.eqb_refl, IH.
Qed.

Lemma lrange_rpush_db (key value : str) (db : list (str * list str)) :
  lrange key (rpush_db key value db) = lrange key db ++ [value].
Proof.
  induction db as [|[k l] db IH]; simpl.
  - now rewrite str_eqb_refl.
  - destruct (str_eqb key k) eqn:E; simpl; rewrite E; [reflexivity|exact IH].
Qed.

(** ** A missing field *)

(** C2 (as amended).  A POST whose form has no ['vote'] field is answered
    with status 400 when the application is not in debug mode, and with
    status 500 when it is (as under the launcher of lines 68-69); no
    append call is made and the server's lists are as they were.  The
    handler has by then asked for the Redis client: on a context that
    holds none, the client is constructed, cached and its initialisation
    logged; on a context that holds one, nothing at all changes. *)
Theorem C2_missing_vote_rejected (debug : bool)
  (cfg : Config) (req : Request) (draw : N) (st : State) :
  method req = POST ->
  dict_get (lit "vote") (form req) = None ->
  let resp := fst (dispatch debug cfg req draw st) in
  let st' := snd (dispatch debug cfg req draw st) in
  status_code resp = (if debug then 500 else 400)
  /\ rpush_calls (events_since st st') = []
  /\ server st' = server st
  /\ events_since st st' =
       match g_redis st with Some _ => [] | None => init_events cfg end
  /\ st' = after_get_redis cfg st.
Proof.
  intros Hm Hv. unfold dispatch.
  rewrite (hello_post_missing cfg req draw st Hm Hv). simpl.
  pose proof (events_since_app _ _ _ (after_get_redis_trace cfg st)) as He.
  repeat split.
  - rewrite He. apply rpush_calls_init.
  - apply after_get_redis_server.
  - exact He.
Qed.

Lemma C2_missing_vote_rejected_witness :
  (method (post_request [] []) = POST
   /\ dict_get (lit "vote") (form (post_request [] [])) = None)
  /\ status_code
       (fst (dispatch false sample_config (post_request [] []) 7 (initial_state [])))
     = 400.
Proof.
  split; [split; reflexivity|].
  exact (proj1 (C2_missing_vote_rejected false sample_config (post_request [] []) 7
                  (initial_state []) eq_refl eq_refl)).
Defined.

(** C2 (as stated) fails: on a fresh context, a POST without the field
    leaves effects behind, the construction of the client and a log
    record, and a state that differs from the one it started in.  (Under
    the launcher of lines 68-69 the status is not a client error either,
    see [missing_vote_under_main].) *)
Lemma C2_counterexample :
  let req := post_request [] [] in
  let st := initial_state [] in
  let st' := snd (dispatch false sample_config req 7 st) in
  method req = POST
  /\ dict_get (lit "vote") (form req) = None
  /\ events_since st st' = init_events sample_config
  /\ st' <> st.
Proof.
  repeat split; discriminate.
Qed.

(** ** A value that is not an option *)




(** ** The identity and its cookie *)

Lemma hello_ok_cookie (cfg : Config) (req : Request) (draw : N)
  (st st' : State) (resp : Response) :
  hello cfg req draw st = (Ok resp, st') ->
  set_cookies resp = [(lit "voter_id", resolve_voter_id (cookies req) draw)].
Proof.
  destruct (method req) eqn:Hm.
  - rewrite (hello_get cfg req draw st Hm). intros E. injection E as <- _.
    reflexivity.
  - destruct (dict_get (lit "vote") (form req)) as [v|] eqn:Hv.
    + rewrite (hello_post cfg req draw st v Hm Hv).
      destruct (status (server st)); intros E; try discriminate.
      injection E as <- _. reflexivity.
    + rewrite (hello_post_missing cfg req draw st Hm Hv). discriminate.
Qed.

Lemma hello_returns (cfg : Config) (req : Request) (draw : N) (st : State) :
  returns_page req st = true ->
  fst (hello cfg req draw st) =
  Ok (page_response cfg (resolve_voter_id (cookies req) draw)
        match method req with
        | GET => None
        | POST => dict_get (lit "vote") (form req)
        end).
Proof.
  unfold returns_page. destruct (method req) eqn:Hm.
  - intros _. now rewrite (hello_get cfg req draw st Hm).
  - destruct (dict_get (lit "vote") (form req)) as [v|] eqn:Hv;
      [|discriminate].
    rewrite (hello_post cfg req draw st v Hm Hv).
    destruct (status (server st)); [reflexivity|discriminate|discriminate].
Qed.

Lemma dispatch_returns (debug : bool) (cfg : Config) (req : Request) (draw : N) (st : State) :
  returns_page req st = true ->
  fst (dispatch debug cfg req draw st) =
  page_response cfg (resolve_voter_id (cookies req) draw)
    match method req with
    | GET => None
    | POST => dict_get (lit "vote") (form req)
    end.
Proof.
  intros H. pose proof (hello_returns cfg req draw st H) as Hr.
  unfold dispatch. destruct (hello cfg req draw st) as [r st'].
  simpl in Hr. now rewrite Hr.
Qed.

(** C4 (as amended).  A non-empty ['voter_id'] cookie is the resolved
    identity, unchanged; with no cookie, or an empty one, the identity is
    minted from the random draw.  Whenever the handler reaches its
    [return] (every GET, every POST with a ['vote'] field whose append the
    server takes), it does return a response, and that response sets the
    ['voter_id'] cookie to the resolved identity. *)
Theorem C4_identity_resolved_and_echoed (debug : bool)
  (cfg : Config) (req : Request) (draw : N) (st : State) :
  let vid := resolve_voter_id (cookies req) draw in
  match dict_get (lit "voter_id") (cookies req) with
  | Some (c :: t) => vid = c :: t
  | Some [] | None => vid = mint_token draw
  end
  /\ (returns_page req st = true ->
      exists resp,
        fst (hello cfg req draw st) = Ok resp
        /\ fst (dispatch debug cfg req draw st) = resp
        /\ set_cookies resp = [(lit "voter_id", vid)]).
Proof.
  intros vid. split.
  - unfold vid, resolve_voter_id.
    destruct (dict_get (lit "voter_id") (cookies req)) as [[|c t]|]; reflexivity.
  - intros H. eexists. split; [exact (hello_returns cfg req draw st H)|].
    split; [exact (dispatch_returns debug cfg req draw st H)|reflexivity].
Qed.

Lemma C4_identity_resolved_and_echoed_witness :
  let req := get_request [(lit "voter_id", lit "abc")] in
  let st := initial_state [] in
  returns_page req st = true
  /\ resolve_voter_id (cookies req) 7 = lit "abc"
  /\ exists resp,
       fst (hello sample_config req 7 st) = Ok resp
       /\ fst (dispatch false sample_config req 7 st) = resp
       /\ set_cookies resp = [(lit "voter_id", lit "abc")].
Proof.
  split; [reflexivity|]. split; [reflexivity|].
  exact (proj2 (C4_identity_resolved_and_echoed false sample_config
                  (get_request [(lit "voter_id", lit "abc")]) 7
                  (initial_state [])) eq_refl).
Defined.

(** C4 (as stated) fails: a POST that carries the token ['abc'] and no
    ['vote'] field is answered without any cookie. *)
Lemma C4_counterexample :
  let req := post_request [(lit "voter_id", lit "abc")] [] in
  let resp := fst (dispatch false sample_config req 7 (initial_state [])) in
  resolve_voter_id (cookies req) 7 = lit "abc"
  /\ set_cookies resp = []
  /\ set_cookies resp <> [(lit "voter_id", lit "abc")].
Proof.
  repeat split; discriminate.
Qed.

(** C7 (as amended).  The response sets the ['voter_id'] cookie to the
    resolved identity exactly when the handler reaches its [return]: on
    every GET, and on every POST that has a ['vote'] field and whose append
    the server takes; the status is then 200.  The responses for a missing
    field (400, or 500 in debug mode) and for a failed append (500) set no
    cookie. *)
Theorem C7_cookie_on_returned_pages (debug : bool)
  (cfg : Config) (req : Request) (draw : N) (st : State) :
  let resp := fst (dispatch debug cfg req draw st) in
  (returns_page req st = true
   /\ status_code resp = 200
   /\ set_cookies resp =
      [(lit "voter_id", resolve_voter_id (cookies req) draw)])
  \/ (returns_page req st = false
      /\ (status_code resp = 400 \/ status_code resp = 500)
      /\ set_cookies resp = []).
Proof.
  unfold returns_page, dispatch. destruct (method req) eqn:Hm.
  - rewrite (hello_get cfg req draw st Hm). left. repeat split.
  - destruct (dict_get (lit "vote") (form req)) as [v|] eqn:Hv.
    + rewrite (hello_post cfg req draw st v Hm Hv).
      destruct (status (server st)); simpl.
      * left. repeat split.
      * right. repeat split. now right.
      * right. repeat split. now right.
    + rewrite (hello_post_missing cfg req draw st Hm Hv). simpl.
      right. repeat split. destruct debug; [now right|now left].
Qed.

(** C7 (as stated) fails: when the server refuses the connection, the
    response to a POST with a vote has status 500 and sets no cookie. *)
Lemma C7_counterexample :
  let req := post_request [(lit "voter_id", lit "abc")] [(lit "vote", lit "a")] in
  let st := set_status Refusing (initial_state []) in
  let resp := fst (dispatch false sample_config req 7 st) in
  status_code resp = 500 /\ set_cookies resp = [].
Proof.
  split; reflexivity.
Qed.

(** ** A failing append *)

(** C6.  When the server does not take the append (it refuses the
    connection or stays silent past the timeout), a POST with a vote is
    answered with status 500: the handler raises instead of returning,
    the server's lists are unchanged, and exactly one append call was
    made. *)
Theorem C6_failed_append_is_server_error (debug : bool)
  (cfg : Config) (req : Request) (draw : N) (st : State) (v : str) :
  method req = POST ->
  dict_get (lit "vote") (form req) = Some v ->
  status (server st) <> Up ->
  let vid := resolve_voter_id (cookies req) draw in
  let st' := snd (dispatch debug cfg req draw st) in
  status_code (fst (dispatch debug cfg req draw st)) = 500
  /\ (exists e, fst (hello cfg req draw st) = Raise e)
  /\ lists (server st') = lists (server st)
  /\ rpush_calls (events_since st st') = [(lit "votes", vote_payload vid v)].
Proof.
  intros Hm Hv Hs vid st'. subst st'. rewrite dispatch_snd.
  pose proof (hello_post_calls cfg req draw st v Hm Hv) as Hc.
  unfold dispatch. rewrite (hello_post cfg req draw st v Hm Hv) in *.
  destruct (status (server st)); [contradiction| |]; simpl;
    (repeat split; [eexists; reflexivity | exact Hc]).
Qed.

Lemma C6_failed_append_is_server_error_witness :
  let req := post_request [(lit "voter_id", lit "abc")] [(lit "vote", lit "a")] in
  let st := set_status Silent (initial_state []) in
  (method req = POST
   /\ dict_get (lit "vote") (form req) = Some (lit "a")
   /\ status (server st) <> Up)
  /\ status_code (fst (dispatch false sample_config req 7 st)) = 500.
Proof.
  assert (Hs : status (server (set_status Silent (initial_state []))) <> Up)
    by discriminate.
  split; [repeat split; exact Hs|].
  exact (proj1 (C6_failed_append_is_server_error false sample_config
                  (post_request [(lit "voter_id", lit "abc")]
                                [(lit "vote", lit "a")])
                  7 (set_status Silent (initial_state [])) (lit "a")
                  eq_refl eq_refl Hs)).
Defined.

(** ** The cached client *)

Lemma hello_handle (cfg : Config) (req : Request) (draw : N) (st : State) :
  g_redis (snd (hello cfg req draw st)) =
  match method req with
  | GET => g_redis st
  | POST => g_redis (after_get_redis cfg st)
  end.
Proof.
  destruct (method req) eqn:Hm.
  - now rewrite (hello_get cfg req draw st Hm).
  - destruct (dict_get (lit "vote") (form req)) as [v|] eqn:Hv.
    + rewrite (hello_post cfg req draw st v Hm Hv).
      destruct (status (server st)); reflexivity.
    + now rewrite (hello_post_missing cfg req draw st Hm Hv).
Qed.

Lemma hello_constructions (cfg : Config) (req : Request) (draw : N) (st : State) :
  constructions (trace (snd (hello cfg req draw st))) =
  (constructions (trace st)
   + match method req, g_redis st with
     | POST, None => 1
     | _, _ => 0
     end)%nat.
Proof.
  destruct (method req) eqn:Hm.
  - rewrite (hello_get cfg req draw st Hm). simpl. lia.
  - destruct (dict_get (lit "vote") (form req)) as [v|] eqn:Hv.
    + rewrite (hello_post_trace cfg req draw st v Hm Hv).
      rewrite !constructions_app. destruct (g_redis st); simpl; lia.
    + rewrite (hello_post_missing cfg req draw st Hm Hv). cbn [snd].
      rewrite after_get_redis_trace, constructions_app.
      destruct (g_redis st); simpl; lia.
Qed.

Lemma fresh_context_trace (st : State) : trace (fresh_context st) = trace st.
Proof. reflexivity. Qed.

Lemma fresh_context_server (st : State) : server (fresh_context st) = server st.
Proof. reflexivity. Qed.

Lemma handle_request_snd (debug : bool) (cfg : Config) (a : Arrival) (st : State) :
  snd (handle_request debug cfg a st) =
  fresh_context
    (snd (hello cfg (arr_request a) (arr_draw a)
            (set_status (arr_server a) (fresh_context st)))).
Proof.
  unfold handle_request. rewrite <- (dispatch_snd debug).
  destruct (dispatch debug cfg (arr_request a) (arr_draw a)
              (set_status (arr_server a) (fresh_context st))); reflexivity.
Qed.

Lemma serve_cons (debug : bool) (cfg : Config) (a : Arrival)
  (rest : list Arrival) (st : State) :
  snd (serve debug cfg (a :: rest) st) =
  snd (serve debug cfg rest (snd (handle_request debug cfg a st))).
Proof.
  cbn [serve]. destruct (handle_request debug cfg a st) as [resp st1].
  cbn [snd]. destruct (serve debug cfg rest st1) as [resps st2]. reflexivity.
Qed.

Lemma serve_constructions (debug : bool) (cfg : Config)
  (arrivals : list Arrival) (st : State) :
  constructions (trace (snd (serve debug cfg arrivals st))) =
  (constructions (trace st) + List.length (filter is_post arrivals))%nat.
Proof.
  revert st. induction arrivals as [|a rest IH]; intros st.
  - simpl. lia.
  - rewrite serve_cons, IH, handle_request_snd, fresh_context_trace.
    rewrite hello_constructions. cbn [filter]. unfold is_post at 2.
    cbn [g_redis set_status fresh_context trace].
    destruct (method (arr_request a)); cbn [List.length]; lia.
Qed.

(** C8 (as amended).  Within an application context the client is built
    on first use and then kept: a call of [get_redis] leaves a handle in
    the context, constructs one only if the context held none, and a
    second call returns the same handle and changes nothing.  The context
    lasts for one request, so the client is not carried from one request
    to the next: over the requests of a process, one client is constructed
    for every POST and none for a GET. *)
Theorem C8_client_constructed_once (debug : bool) (cfg : Config) :
  (forall st : State,
     let st1 := snd (get_redis cfg st) in
     let h := match g_redis st with
              | Some h0 => h0
              | None => mkRedis (redis_kwargs cfg)
              end in
     fst (get_redis cfg st) = Ok h
     /\ g_redis st1 = Some h
     /\ constructions (events_since st st1) =
        match g_redis st with Some _ => O | None => 1%nat end
     /\ get_redis cfg st1 = (Ok h, st1))
  /\ (forall (arrivals : list Arrival) (st : State),
        constructions (trace (snd (serve debug cfg arrivals st))) =
        (constructions (trace st) + List.length (filter is_post arrivals))%nat).
Proof.
  split.
  - intros st. simpl. rewrite !get_redis_eq. simpl.
    rewrite (events_since_app _ _ _ (after_get_redis_trace cfg st)).
    rewrite after_get_redis_handle.
    repeat split.
    + destruct (g_redis st); reflexivity.
    + unfold after_get_redis at 1. rewrite after_get_redis_handle. reflexivity.
  - intros arrivals st. apply serve_constructions.
Qed.

(** C8 (as stated) fails: two POSTs served one after the other construct
    two clients; the handle of the first request is not there for the
    second. *)
Lemma C8_counterexample :
  let post := post_request [(lit "voter_id", lit "abc")] [(lit "vote", lit "a")] in
  let st := snd (serve false sample_config
                   [mkArrival post 7 Up; mkArrival post 9 Up] (initial_state [])) in
  constructions (trace st) = 2%nat /\ g_redis st = None.
Proof.
  split; reflexivity.
Qed.

(** ** Start-up *)

Lemma startup_crashes_iff (ud : N -> option N) (env : Dict) (host : str) :
  (exists e, startup ud env host = Crashed e) <->
  py_int ud (getenv env (lit "REDIS_PORT") (lit "6379")) = None.
Proof.
  unfold startup, load_config.
  destruct (py_int ud (getenv env (lit "REDIS_PORT") (lit "6379"))); split.
  - intros [e H]. discriminate.
  - discriminate.
  - reflexivity.
  - intros _. now exists ValueError.
Qed.



(** ** What the payload depends on *)

(** C10.  Two POSTs with the same non-empty ['voter_id'] cookie and the
    same ['vote'] value make the same single append call, whatever else
    differs: the other cookies and fields, the configuration, the random
    draw, the state of the context and of the server. *)
Theorem C10_payload_depends_on_identity_and_choice (debug : bool)
  (cfg1 cfg2 : Config) (req1 req2 : Request) (draw1 draw2 : N)
  (st1 st2 : State) (t v : str) :
  method req1 = POST -> method req2 = POST ->
  t <> [] ->
  dict_get (lit "voter_id") (cookies req1) = Some t ->
  dict_get (lit "voter_id") (cookies req2) = Some t ->
  dict_get (lit "vote") (form req1) = Some v ->
  dict_get (lit "vote") (form req2) = Some v ->
  rpush_calls (events_since st1 (snd (dispatch debug cfg1 req1 draw1 st1))) =
    [(lit "votes", vote_payload t v)]
  /\ rpush_calls (events_since st2 (snd (dispatch debug cfg2 req2 draw2 st2))) =
     rpush_calls (events_since st1 (snd (dispatch debug cfg1 req1 draw1 st1))).
Proof.
  intros Hm1 Hm2 Ht Hc1 Hc2 Hv1 Hv2. rewrite !dispatch_snd.
  rewrite (hello_post_calls cfg1 req1 draw1 st1 v Hm1 Hv1).
  rewrite (hello_post_calls cfg2 req2 draw2 st2 v Hm2 Hv2).
  unfold resolve_voter_id. rewrite Hc1, Hc2.
  destruct t as [|c t]; [contradiction|]. split; reflexivity.
Qed.

Lemma C10_payload_depends_on_identity_and_choice_witness :
  let req1 := post_request [(lit "voter_id", lit "abc")] [(lit "vote", lit "a")] in
  let req2 := post_request [(lit "lang", lit "en"); (lit "voter_id", lit "abc")]
                           [(lit "vote", lit "a"); (lit "extra", lit "1")] in
  let cfg2 := mkConfig (lit "cache") 6380%Z None true (lit "Tea") (lit "Coffee")
                       (lit "vote-2") in
  (dict_get (lit "voter_id") (cookies req2) = Some (lit "abc")
   /\ dict_get (lit "vote") (form req2) = Some (lit "a"))
  /\ rpush_calls
       (events_since (initial_state [])
          (snd (dispatch false sample_config req1 7 (initial_state []))))
     = [(lit "votes", vote_payload (lit "abc") (lit "a"))].
Proof.
  split; [split; reflexivity|].
  refine (proj1 (C10_payload_depends_on_identity_and_choice false
                   sample_config
                   (mkConfig (lit "cache") 6380%Z None true (lit "Tea")
                             (lit "Coffee") (lit "vote-2"))
                   (post_request [(lit "voter_id", lit "abc")]
                                 [(lit "vote", lit "a")])
                   (post_request [(lit "lang", lit "en");
                                  (lit "voter_id", lit "abc")]
                                 [(lit "vote", lit "a"); (lit "extra", lit "1")])
                   7 9 (initial_state [])
                   (set_status Silent (initial_state []))
                   (lit "abc") (lit "a")
                   eq_refl eq_refl _ eq_refl eq_refl eq_refl eq_refl)).
  discriminate.
Defined.

(** ** The minted token *)

Lemma hexdigit_lower_hex (d : N) : d < 16 -> is_lower_hex (hexdigit d) = true.
Proof.
  intros H. unfold is_lower_hex, hexdigit.
  destruct (N.ltb_spec d 10).
  - apply orb_true_intro. left. apply andb_true_intro.
    split; apply N.leb_le; lia.
  - apply orb_true_intro. right. apply andb_true_intro.
    split; apply N.leb_le; lia.
Qed.

Lemma hexval_hexdigit (d : N) : d < 16 -> hexval (hexdigit d) = Some d.
Proof.
  intros H. unfold hexval, hexdigit.
  destruct (N.ltb_spec d 10).
  - replace ((48 <=? 48 + d) && (48 + d <=? 57)) with true.
    + f_equal. lia.
    + symmetry. apply andb_true_intro. split; apply N.leb_le; lia.
  - replace ((48 <=? 87 + d) && (87 + d <=? 57)) with false.
    + replace ((97 <=? 87 + d) && (87 + d <=? 102)) with true.
      * f_equal. lia.
      * symmetry. apply andb_true_intro. split; apply N.leb_le; lia.
    + symmetry. apply andb_false_intro2. apply N.leb_gt. lia.
Qed.

Lemma mod16_lt (n : N) : n mod 16 < 16.
Proof. apply N.mod_lt. discriminate. Qed.

Lemma hex_digits_fuel_lower (fuel : nat) : forall (n : N) (acc : str),
  forallb is_lower_hex acc = true ->
  forallb is_lower_hex (hex_digits_fuel fuel n acc) = true.
Proof.
  induction fuel as [|f IH]; intros n acc Hacc; simpl; [exact Hacc|].
  assert (Hd : forallb is_lower_hex (hexdigit (n mod 16) :: acc) = true).
  { simpl. now rewrite (hexdigit_lower_hex _ (mod16_lt n)), Hacc. }
  destruct (n / 16 =? 0); [exact Hd|]. now apply IH.
Qed.

Lemma hex_digits_fuel_length (fuel : nat) : forall (k : nat) (n : N) (acc : str),
  n < 16 ^ N.of_nat (S k) ->
  (List.length (hex_digits_fuel fuel n acc) <= List.length acc + S k)%nat.
Proof.
  induction fuel as [|f IH]; intros k n acc Hn; simpl; [lia|].
  destruct (N.eqb_spec (n / 16) 0) as [E|E]; simpl; [lia|].
  destruct k as [|k].
  - exfalso. apply E. apply N.div_small. exact Hn.
  - specialize (IH k (n / 16) (hexdigit (n mod 16) :: acc)).
    simpl in IH. assert (Hq : n / 16 < 16 ^ N.of_nat (S k)).
    { apply N.Div0.div_lt_upper_bound.
      rewrite <- N.pow_succ_r'. now rewrite <- Nat2N.inj_succ. }
    specialize (IH Hq). lia.
Qed.

Lemma hex_digits_fuel_value (fuel : nat) : forall (n : N) (acc : str),
  n < 16 ^ N.of_nat fuel ->
  hex_value (hex_digits_fuel fuel n acc) 0 = hex_value acc n.
Proof.
  induction fuel as [|f IH]; intros n acc Hn.
  - simpl in *. replace n with 0 by lia. reflexivity.
  - cbn [hex_digits_fuel].
    assert (Hstep : hex_value (hexdigit (n mod 16) :: acc) (n / 16)
                    = hex_value acc n).
    { cbn [hex_value]. rewrite (hexval_hexdigit _ (mod16_lt n)).
      f_equal. symmetry. apply N.div_mod. discriminate. }
    destruct (N.eqb_spec (n / 16) 0) as [E|E].
    + rewrite <- Hstep, E. reflexivity.
    + rewrite IH; [exact Hstep|].
      apply N.Div0.div_lt_upper_bound.
      rewrite <- N.pow_succ_r'. now rewrite <- Nat2N.inj_succ.
Qed.

(** [hex] writes the number it is given: the digits read back as [n]. *)
Lemma hex_digits_value (n : N) : hex_value (hex_digits n) 0 = Some n.
Proof.
  unfold hex_digits. rewrite hex_digits_fuel_value; [reflexivity|].
  rewrite Nat2N.inj_succ, N2Nat.id.
  destruct (N.eq_dec n 0) as [->|Hn]; [reflexivity|].
  apply N.lt_le_trans with (2 ^ N.succ (N.log2 n)).
  - apply N.log2_spec. lia.
  - apply N.pow_le_mono_l. lia.
Qed.

Lemma hex_digits_lower (n : N) : forallb is_lower_hex (hex_digits n) = true.
Proof. apply hex_digits_fuel_lower. reflexivity. Qed.

Lemma hex_digits_length (n : N) :
  n < 2 ^ 64 -> (List.length (hex_digits n) <= 16)%nat.
Proof.
  intros H. unfold hex_digits.
  apply (hex_digits_fuel_length _ 15 n []). exact H.
Qed.

(** The slice [[2:-1]] of ['0x' + ds] is [ds] without its last character. *)
Lemma slice_2_m1 (ds : str) : py_slice (lit "0x" ++ ds) 2 (-1) = removelast ds.
Proof.
  unfold py_slice, slice_bound.
  change (lit "0x" ++ ds) with (48 :: 120 :: ds).
  cbn [List.length]. rewrite !Nat2Z.inj_succ. cbn [Z.ltb Z.compare].
  set (len := Z.of_nat (List.length ds)).
  assert (0 <= len)%Z by apply Nat2Z.is_nonneg.
  replace (Z.max 0 (Z.min (Z.succ (Z.succ len)) 2)) with 2%Z by lia.
  replace (Z.max 0 (Z.min (Z.succ (Z.succ len)) (-1 + Z.succ (Z.succ len))))
    with (len + 1)%Z by lia.
  change (skipn (Z.to_nat 2) (48 :: 120 :: ds)) with ds.
  replace (Z.to_nat (len + 1 - 2)) with (pred (List.length ds)) by lia.
  symmetry. apply removelast_firstn_len.
Qed.

Lemma mint_token_eq (draw : N) : mint_token draw = removelast (hex_digits draw).
Proof. apply slice_2_m1. Qed.

Lemma removelast_prefix {A} (l : list A) : exists rest, l = removelast l ++ rest.
Proof.
  destruct l as [|a l].
  - now exists [].
  - exists [last (a :: l) a]. apply app_removelast_last. discriminate.
Qed.

Lemma forallb_removelast {A} (f : A -> bool) (l : list A) :
  forallb f l = true -> forallb f (removelast l) = true.
Proof.
  induction l as [|a l IH]; [trivial|].
  intros H. apply andb_prop in H. destruct H as [Ha Hl].
  destruct l as [|b l]; [reflexivity|].
  change (removelast (a :: b :: l)) with (a :: removelast (b :: l)).
  cbn [forallb]. rewrite Ha. now apply IH.
Qed.

Lemma length_removelast_le {A} (l : list A) :
  (List.length (removelast l) <= List.length l)%nat.
Proof.
  induction l as [|a l IH]; [simpl; lia|].
  destruct l as [|b l]; [simpl; lia|].
  change (removelast (a :: b :: l)) with (a :: removelast (b :: l)).
  cbn [List.length] in *. lia.
Qed.

Lemma resolve_without_token (req : Request) (draw : N) :
  has_token req = false ->
  resolve_voter_id (cookies req) draw = mint_token draw.
Proof.
  unfold has_token, resolve_voter_id.
  destruct (dict_get (lit "voter_id") (cookies req)) as [t|]; [|reflexivity].
  now intros ->.
Qed.

Lemma hex_digits_fuel_acc (fuel : nat) : forall (n : N) (acc : str),
  hex_digits_fuel fuel n acc = hex_digits_fuel fuel n [] ++ acc.
Proof.
  induction fuel as [|f IH]; intros n acc; [reflexivity|].
  cbn [hex_digits_fuel]. destruct (n / 16 =? 0); [reflexivity|].
  rewrite (IH _ (hexdigit (n mod 16) :: acc)), (IH _ [hexdigit (n mod 16)]).
  now rewrite <- app_assoc.
Qed.

Lemma pow16_succ (f : nat) : 16 ^ N.of_nat (S f) = 16 * 16 ^ N.of_nat f.
Proof. now rewrite Nat2N.inj_succ, N.pow_succ_r'. Qed.

Lemma hex_digits_fuel_more (f : nat) : forall (n : N) (acc : str),
  n < 16 ^ N.of_nat (S f) ->
  hex_digits_fuel (S (S f)) n acc = hex_digits_fuel (S f) n acc.
Proof.
  induction f as [|f IH]; intros n acc Hn.
  - cbn [hex_digits_fuel]. rewrite (N.div_small n 16 Hn). reflexivity.
  - remember (S f) as f1. cbn [hex_digits_fuel].
    destruct (n / 16 =? 0); [reflexivity|].
    subst f1. apply IH. apply N.Div0.div_lt_upper_bound.
    now rewrite <- pow16_succ.
Qed.

Lemma hex_digits_fuel_enough (k f : nat) (n : N) (acc : str) :
  n < 16 ^ N.of_nat (S f) ->
  hex_digits_fuel (S f + k) n acc = hex_digits_fuel (S f) n acc.
Proof.
  intros Hn. induction k as [|k IH].
  - now rewrite Nat.add_0_r.
  - rewrite Nat.add_succ_r, <- IH.
    change (S (S f + k)) with (S (S (f + k))). change (S f + k)%nat with (S (f + k)).
    apply hex_digits_fuel_more.
    apply N.lt_le_trans with (16 ^ N.of_nat (S f)); [exact Hn|].
    apply N.pow_le_mono_r; lia.
Qed.

Lemma lt_pow16_log2 (n : N) : n < 16 ^ N.of_nat (S (N.to_nat (N.log2 n))).
Proof.
  rewrite Nat2N.inj_succ, N2Nat.id.
  destruct (N.eq_dec n 0) as [->|Hn]; [reflexivity|].
  apply N.lt_le_trans with (2 ^ N.succ (N.log2 n)).
  - apply N.log2_spec. lia.
  - apply N.pow_le_mono_l. lia.
Qed.

(** From sixteen on, the digits of [n] are those of [n / 16] followed by
    the digit of [n mod 16]. *)
Lemma hex_digits_step (n : N) :
  16 <= n -> hex_digits n = hex_digits (n / 16) ++ [hexdigit (n mod 16)].
Proof.
  intros Hn. unfold hex_digits at 1. cbn [hex_digits_fuel].
  assert (Hq : n / 16 <> 0).
  { intros E. apply N.div_small_iff in E; lia. }
  rewrite (proj2 (N.eqb_neq _ _) Hq). rewrite hex_digits_fuel_acc. f_equal.
  assert (Hlog : N.log2 (n / 16) = N.log2 n - 4).
  { change 16 with (2 ^ 4). rewrite <- N.shiftr_div_pow2. apply N.log2_shiftr. }
  assert (H4 : 4 <= N.log2 n).
  { change 4 with (N.log2 16). now apply N.log2_le_mono. }
  unfold hex_digits.
  replace (N.to_nat (N.log2 n))
    with (S (N.to_nat (N.log2 (n / 16))) + 3)%nat by lia.
  apply hex_digits_fuel_enough. apply lt_pow16_log2.
Qed.

Lemma hex_digits_small (n : N) : n < 16 -> hex_digits n = [hexdigit n].
Proof.
  intros Hn. unfold hex_digits. cbn [hex_digits_fuel].
  rewrite (N.div_small n 16 Hn), (N.mod_small n 16 Hn). reflexivity.
Qed.

(** [hex] pads nothing: the number of digits is the position of the
    highest bit, counted in fours. *)
Lemma hex_digits_length_exact (n : N) :
  List.length (hex_digits n) = S (N.to_nat (N.log2 n / 4)).
Proof.
  induction n as [n IH] using (well_founded_induction N.lt_wf_0).
  destruct (N.lt_ge_cases n 16) as [H|H].
  - rewrite (hex_digits_small n H). cbn [List.length].
    rewrite N.div_small; [reflexivity|].
    destruct (N.eq_dec n 0) as [->|Hn]; [reflexivity|].
    apply (N.log2_lt_pow2 n 4); [lia|exact H].
  - rewrite (hex_digits_step n H), length_app, IH.
    + assert (Hlog : N.log2 (n / 16) = N.log2 n - 4).
      { change 16 with (2 ^ 4). rewrite <- N.shiftr_div_pow2.
        apply N.log2_shiftr. }
      assert (H4 : 4 <= N.log2 n).
      { change 4 with (N.log2 16). now apply N.log2_le_mono. }
      rewrite Hlog.
      replace (N.log2 n) with (1 * 4 + (N.log2 n - 4)) at 2 by lia.
      rewrite N.div_add_l by discriminate. cbn [List.length]. lia.
    + apply N.div_lt; lia.
Qed.

Lemma removelast_prefix_short {A} (l : list A) :
  exists rest, l = removelast l ++ rest /\ (List.length rest <= 1)%nat.
Proof.
  destruct l as [|a l].
  - exists []. split; [reflexivity|simpl; lia].
  - exists [last (a :: l) a]. split; [|simpl; lia].
    apply app_removelast_last. discriminate.
Qed.

(** C5 (as amended).  On a request without a token, the cookie set on the
    returned response is made of lowercase hexadecimal digits only: it is
    [hex]'s rendering of the draw, from the front, lacking at most its
    last digit.  The rendering has no padding: it reads back as the draw
    and its length is the position of the draw's highest bit counted in
    fours, plus one.  So the length of the token varies with the draw, and
    for a 64-bit draw it is at most 16. *)
Theorem C5_minted_token_is_unpadded_hex (debug : bool)
  (cfg : Config) (req : Request) (draw : N) (st : State) :
  draw < 2 ^ 64 ->
  has_token req = false ->
  returns_page req st = true ->
  exists tok rest,
    set_cookies (fst (dispatch debug cfg req draw st)) = [(lit "voter_id", tok)]
    /\ hex_digits draw = tok ++ rest
    /\ (List.length rest <= 1)%nat
    /\ hex_value (hex_digits draw) 0 = Some draw
    /\ List.length (hex_digits draw) = S (N.to_nat (N.log2 draw / 4))
    /\ forallb is_lower_hex tok = true
    /\ (List.length tok <= 16)%nat.
Proof.
  intros Hd Ht Hr.
  destruct (removelast_prefix_short (hex_digits draw)) as [rest [Hrest Hlen]].
  exists (mint_token draw), rest.
  rewrite (dispatch_returns debug cfg req draw st Hr).
  rewrite (resolve_without_token req draw Ht), mint_token_eq.
  repeat split.
  - exact Hrest.
  - exact Hlen.
  - apply hex_digits_value.
  - apply hex_digits_length_exact.
  - apply forallb_removelast, hex_digits_lower.
  - pose proof (length_removelast_le (hex_digits draw)).
    pose proof (hex_digits_length draw Hd). lia.
Qed.

Lemma C5_minted_token_is_unpadded_hex_witness :
  let req := get_request [] in
  let st := initial_state [] in
  (255 < 2 ^ 64 /\ has_token req = false /\ returns_page req st = true)
  /\ exists tok rest,
       set_cookies (fst (dispatch false sample_config req 255 st)) =
         [(lit "voter_id", tok)]
       /\ hex_digits 255 = tok ++ rest
       /\ (List.length rest <= 1)%nat
       /\ hex_value (hex_digits 255) 0 = Some 255
       /\ List.length (hex_digits 255) = S (N.to_nat (N.log2 255 / 4))
       /\ forallb is_lower_hex tok = true
       /\ (List.length tok <= 16)%nat.
Proof.
  split; [repeat split|].
  exact (C5_minted_token_is_unpadded_hex false sample_config (get_request [])
           255 (initial_state []) eq_refl eq_refl eq_refl).
Defined.

(** C5 (as stated) fails: for the draw 255, whose rendering is ['0xff'],
    the cookie set on a request without a token is ['f'], one character
    and not sixteen. *)
Lemma C5_counterexample :
  let req := get_request [] in
  let resp := fst (dispatch false sample_config req 255 (initial_state [])) in
  255 < 2 ^ 64
  /\ has_token req = false
  /\ set_cookies resp = [(lit "voter_id", lit "f")]
  /\ List.length (lit "f") <> 16%nat.
Proof.
  repeat split. discriminate.
Qed.

Example mint_token_255 : py_hex 255 = lit "0xff" /\ mint_token 255 = lit "f".
Proof. split; reflexivity. Qed.

Example mint_token_full_width :
  mint_token (2 ^ 64 - 1) = lit "fffffffffffffff"
  /\ List.length (mint_token (2 ^ 64 - 1)) = 15%nat.
Proof. split; vm_compute; reflexivity. Qed.

Example mint_token_small_draw : py_hex 0 = lit "0x0" /\ mint_token 0 = [].
Proof. split; reflexivity. Qed.

(** ** The wire format: decoding what was encoded *)

Lemma decode_hex4_hex4 (n : N) :
  n < 65536 ->
  decode_hex4 (hexdigit (n / 4096 mod 16)) (hexdigit (n / 256 mod 16))
              (hexdigit (n / 16 mod 16)) (hexdigit (n mod 16)) = Some n.
Proof.
  intros H. unfold decode_hex4.
  rewrite !(hexval_hexdigit _ (mod16_lt _)). f_equal.
  change 4096 with (16 * 256). change 256 with (16 * 16).
  rewrite <- !N.Div0.div_div.
  pose proof (N.div_mod n 16). pose proof (N.div_mod (n / 16) 16).
  pose proof (N.div_mod (n / 16 / 16) 16).
  pose proof (mod16_lt n). pose proof (mod16_lt (n / 16)).
  pose proof (mod16_lt (n / 16 / 16)).
  assert (n / 16 / 16 / 16 < 16).
  { repeat apply N.Div0.div_lt_upper_bound. exact H. }
  rewrite (N.mod_small (n / 16 / 16 / 16) 16) by assumption.
  lia.
Qed.

Lemma lor_low (k x : N) : x < 1024 -> N.lor (k * 1024) x = k * 1024 + x.
Proof.
  intros H. rewrite <- N.lxor_lor, <- N.add_nocarry_lxor; try reflexivity.
  all: change 1024 with (2 ^ 10); rewrite <- N.shiftl_mul_pow2.
  all: apply N.bits_inj_0; intros i; rewrite N.land_spec.
  all: destruct (N.ltb_spec i 10) as [Hi|Hi].
  all: try (rewrite N.shiftl_spec_low by exact Hi; reflexivity).
  all: assert (Hx : N.testbit x i = false)
         by (destruct (N.eq_dec x 0) as [->|Hx0]; [apply N.bits_0|];
             apply N.bits_above_log2;
             apply N.lt_le_trans with 10; [|exact Hi];
             apply N.log2_lt_pow2; [lia|exact H]).
  all: rewrite Hx; apply andb_false_r.
Qed.

Lemma scanstring_literal (c : N) (r : str) :
  c <> 34 -> c <> 92 -> 32 <= c ->
  scanstring (c :: r) = consr c (scanstring r).
Proof.
  intros H1 H2 H3. cbn [scanstring].
  rewrite (proj2 (N.eqb_neq c 34) H1), (proj2 (N.eqb_neq c 92) H2).
  rewrite (proj2 (N.ltb_ge c 32) H3). reflexivity.
Qed.

Lemma scanstring_u_escape (n : N) (rest : str) :
  n < 65536 -> is_high_surrogate n = false ->
  scanstring (u_escape n ++ rest) = consr n (scanstring rest).
Proof.
  intros Hn Hs. unfold u_escape, hex4.
  pose proof (decode_hex4_hex4 n Hn) as Hd. revert Hd.
  generalize (hexdigit (n / 4096 mod 16)) (hexdigit (n / 256 mod 16))
             (hexdigit (n / 16 mod 16)) (hexdigit (n mod 16)).
  intros a b c d Hd. simpl. rewrite Hd, Hs. reflexivity.
Qed.

Lemma scanstring_surrogate_pair (hi lo : N) (rest : str) :
  hi < 65536 -> lo < 65536 ->
  is_high_surrogate hi = true -> is_low_surrogate lo = true ->
  scanstring (u_escape hi ++ u_escape lo ++ rest) =
  consr (join_surrogates hi lo) (scanstring rest).
Proof.
  intros Hh Hl Hhs Hls. unfold u_escape, hex4.
  pose proof (decode_hex4_hex4 hi Hh) as Hd1.
  pose proof (decode_hex4_hex4 lo Hl) as Hd2. revert Hd1 Hd2.
  generalize (hexdigit (hi / 4096 mod 16)) (hexdigit (hi / 256 mod 16))
             (hexdigit (hi / 16 mod 16)) (hexdigit (hi mod 16))
             (hexdigit (lo / 4096 mod 16)) (hexdigit (lo / 256 mod 16))
             (hexdigit (lo / 16 mod 16)) (hexdigit (lo mod 16)).
  intros a b c d a' b' c' d' Hd1 Hd2. simpl.
  rewrite Hd1, Hhs, Hd2, Hls. reflexivity.
Qed.

Lemma high_surrogate_eq (n : N) :
  n < 1048576 ->
  N.lor 55296 (N.land (N.shiftr n 10) 1023) = 55296 + n / 1024.
Proof.
  intros H. change 1023 with (N.ones 10).
  rewrite N.land_ones, N.shiftr_div_pow2. change (2 ^ 10) with 1024.
  assert (Hq : n / 1024 < 1024) by (apply N.Div0.div_lt_upper_bound; exact H).
  rewrite (N.mod_small _ _ Hq). apply (lor_low 54 _ Hq).
Qed.

Lemma low_surrogate_eq (n : N) :
  N.lor 56320 (N.land n 1023) = 56320 + n mod 1024.
Proof.
  change 1023 with (N.ones 10). rewrite N.land_ones.
  change (2 ^ 10) with 1024. apply (lor_low 55).
  apply N.mod_lt. discriminate.
Qed.

Lemma join_surrogates_eq (n : N) :
  n < 1048576 ->
  join_surrogates (55296 + n / 1024) (56320 + n mod 1024) = 65536 + n.
Proof.
  intros H. unfold join_surrogates.
  rewrite (N.add_comm 55296), (N.add_comm 56320), !N.add_sub.
  rewrite N.shiftl_mul_pow2. change (2 ^ 10) with 1024.
  rewrite lor_low by (apply N.mod_lt; discriminate).
  f_equal. rewrite N.mul_comm. symmetry. apply N.div_mod. discriminate.
Qed.

Lemma scanstring_escape_char (c : N) (rest : str) :
  is_scalar c = true ->
  scanstring (escape_char c ++ rest) = consr c (scanstring rest).
Proof.
  intros Hc. unfold escape_char.
  destruct (N.eqb_spec c 34) as [->|H34]; [reflexivity|].
  destruct (N.eqb_spec c 92) as [->|H92]; [reflexivity|].
  destruct (N.eqb_spec c 10) as [->|H10]; [reflexivity|].
  destruct (N.eqb_spec c 13) as [->|H13]; [reflexivity|].
  destruct (N.eqb_spec c 9) as [->|H9]; [reflexivity|].
  destruct (N.eqb_spec c 12) as [->|H12]; [reflexivity|].
  destruct (N.eqb_spec c 8) as [->|H8]; [reflexivity|].
  destruct ((32 <=? c) && (c <=? 126)) eqn:Hp.
  - apply andb_prop in Hp. destruct Hp as [Hlo _].
    apply scanstring_literal; [assumption|assumption|now apply N.leb_le].
  - unfold is_scalar in Hc.
    destruct (N.ltb_spec c 65536) as [Hs|Hs].
    + apply scanstring_u_escape; [exact Hs|].
      unfold is_high_surrogate.
      destruct (N.ltb_spec c 55296);
        [apply andb_false_intro1; apply N.leb_gt; lia|].
      simpl in Hc. apply andb_prop in Hc. destruct Hc as [Hc _].
      apply N.ltb_lt in Hc. apply andb_false_intro2. apply N.leb_gt. lia.
    + assert (Hn : c - 65536 < 1048576).
      { destruct (N.ltb_spec c 55296); [lia|]. simpl in Hc.
        apply andb_prop in Hc. destruct Hc as [_ Hc].
        apply N.ltb_lt in Hc. lia. }
      cbv zeta. rewrite (high_surrogate_eq _ Hn), low_surrogate_eq.
      rewrite <- app_assoc.
      assert (Hq : (c - 65536) / 1024 < 1024)
        by (apply N.Div0.div_lt_upper_bound; exact Hn).
      pose proof (N.mod_lt (c - 65536) 1024 ltac:(discriminate)) as Hr.
      rewrite scanstring_surrogate_pair.
      * rewrite (join_surrogates_eq _ Hn). f_equal. lia.
      * revert Hq. generalize ((c - 65536) / 1024). intros; lia.
      * revert Hr. generalize ((c - 65536) mod 1024). intros; lia.
      * revert Hq. generalize ((c - 65536) / 1024). intros q Hq.
        unfold is_high_surrogate. apply andb_true_intro.
        split; apply N.leb_le; lia.
      * revert Hr. generalize ((c - 65536) mod 1024). intros r Hr.
        unfold is_low_surrogate. apply andb_true_intro.
        split; apply N.leb_le; lia.
Qed.

Lemma scanstring_escape (s rest : str) :
  well_formed s = true ->
  scanstring (flat_map escape_char s ++ 34 :: rest) = Some (s, rest).
Proof.
  induction s as [|c s IH]; intros H; [reflexivity|].
  simpl in H. apply andb_prop in H. destruct H as [Hc Hs].
  cbn [flat_map]. rewrite <- app_assoc.
  rewrite (scanstring_escape_char c _ Hc), (IH Hs). reflexivity.
Qed.

Lemma json_item_app (k v R : str) :
  json_item (k, v) ++ R =
  34 :: flat_map escape_char k
     ++ 34 :: 58 :: 32 :: 34 :: flat_map escape_char v ++ 34 :: R.
Proof.
  unfold json_item, json_dumps_str. cbn [fst snd].
  change (lit ": ") with [58; 32].
  cbn [app]. f_equal. rewrite <- !app_assoc. cbn [app]. f_equal.
  f_equal. f_equal. f_equal. f_equal. rewrite <- !app_assoc. reflexivity.
Qed.

Lemma scan_members_step (f : nat) (k v : str) (sep : N) (R : str) :
  well_formed k = true -> well_formed v = true ->
  is_json_ws sep = false ->
  scan_members (S f)
    (34 :: flat_map escape_char k
        ++ 34 :: 58 :: 32 :: 34 :: flat_map escape_char v ++ 34 :: sep :: R) =
  if sep =? 125 then Some ([(k, v)], R)
  else if sep =? 44 then
    match scan_members f (skip_ws R) with
    | Some (d, rest) => Some ((k, v) :: d, rest)
    | None => None
    end
  else None.
Proof.
  intros Hk Hv Hsep. simpl.
  rewrite (scanstring_escape k _ Hk). simpl.
  rewrite (scanstring_escape v _ Hv). simpl.
  rewrite Hsep. reflexivity.
Qed.

Lemma json_join_head (d : Dict) :
  d <> [] -> exists t, json_join (List.map json_item d) = 34 :: t.
Proof.
  destruct d as [|[k v] d]; [contradiction|]. intros _.
  cbn [List.map json_join]. destruct (List.map json_item d).
  - rewrite <- (app_nil_r (json_item (k, v))), json_item_app. eauto.
  - rewrite json_item_app. eauto.
Qed.

Lemma json_join_length (d : Dict) :
  (List.length d <= List.length (json_join (List.map json_item d)))%nat.
Proof.
  induction d as [|[k v] d IH]; [simpl; lia|].
  cbn [List.map json_join List.length] in *.
  destruct (List.map json_item d) as [|x l] eqn:E.
  - destruct d; [|discriminate].
    rewrite <- (app_nil_r (json_item (k, v))), json_item_app. simpl. lia.
  - rewrite json_item_app. cbn [List.length]. rewrite length_app.
    cbn [List.length]. rewrite length_app. cbn [List.length].
    change (lit ", ") with [44; 32]. cbn [app List.length]. lia.
Qed.

Lemma scan_members_join (d : Dict) : forall (fuel : nat) (rest : str),
  d <> [] ->
  well_formed_dict d = true ->
  (List.length d <= fuel)%nat ->
  scan_members fuel (json_join (List.map json_item d) ++ 125 :: rest) =
  Some (d, rest).
Proof.
  induction d as [|[k v] d IH]; intros fuel rest Hne Hwf Hlen;
    [contradiction|].
  destruct fuel as [|f]; [simpl in Hlen; lia|].
  cbn [well_formed_dict forallb fst snd] in Hwf.
  apply andb_prop in Hwf. destruct Hwf as [Hkv Hd].
  apply andb_prop in Hkv. destruct Hkv as [Hk Hv].
  destruct d as [|kv2 d'].
  - cbn [List.map json_join]. rewrite json_item_app.
    rewrite (scan_members_step f k v 125 rest Hk Hv eq_refl). reflexivity.
  - assert (Hne2 : kv2 :: d' <> []) by discriminate.
    destruct (json_join_head (kv2 :: d') Hne2) as [t Ht].
    specialize (IH f rest Hne2 Hd ltac:(simpl in *; lia)).
    change (json_join (List.map json_item ((k, v) :: kv2 :: d')))
      with (json_item (k, v) ++ lit ", "
              ++ json_join (List.map json_item (kv2 :: d'))).
    rewrite <- app_assoc, json_item_app. change (lit ", ") with [44; 32].
    cbn [app].
    rewrite (scan_members_step f k v 44 _ Hk Hv eq_refl).
    cbn [N.eqb Pos.eqb]. rewrite Ht in *. cbn [app skip_ws].
    change (is_json_ws 32) with true. change (is_json_ws 34) with false.
    cbv iota. cbn [app] in IH. rewrite IH. reflexivity.
Qed.

(** Decoding what [json.dumps] wrote gives back the items of the dict. *)
Lemma json_loads_dumps (d : Dict) :
  well_formed_dict d = true -> json_loads (json_dumps_dict d) = Some d.
Proof.
  intros Hwf. destruct d as [|kv d]; [reflexivity|].
  assert (Hne : kv :: d <> []) by discriminate.
  destruct (json_join_head (kv :: d) Hne) as [t Ht].
  pose proof (json_join_length (kv :: d)) as Hlen.
  pose proof (scan_members_join (kv :: d)
                (List.length (json_join (List.map json_item (kv :: d)) ++ [125]))
                [] Hne Hwf) as Hscan.
  rewrite length_app in Hscan. specialize (Hscan ltac:(lia)).
  rewrite <- length_app in Hscan.
  unfold json_loads, json_dumps_dict. rewrite Ht in *.
  cbn [app skip_ws]. change (is_json_ws 123) with false. cbv iota.
  change (123 =? 123) with true. cbv iota.
  cbn [skip_ws]. change (is_json_ws 34) with false. cbv iota zeta.
  change (34 =? 125) with false. cbv iota.
  cbn [app] in Hscan. rewrite Hscan. reflexivity.
Qed.

Lemma lower_hex_well_formed (s : str) :
  forallb is_lower_hex s = true -> well_formed s = true.
Proof.
  induction s as [|c s IH]; [trivial|]. cbn [forallb well_formed].
  intros H. apply andb_prop in H. destruct H as [Hc Hs].
  fold (well_formed s). rewrite (IH Hs), andb_true_r.
  unfold is_scalar. apply orb_true_intro. left. apply N.ltb_lt.
  unfold is_lower_hex in Hc. apply orb_prop in Hc.
  destruct Hc as [Hc|Hc]; apply andb_prop in Hc; destruct Hc as [_ Hc];
    apply N.leb_le in Hc; lia.
Qed.

Lemma resolve_well_formed (req : Request) (draw : N) :
  well_formed_request req = true ->
  well_formed (resolve_voter_id (cookies req) draw) = true.
Proof.
  intros H. apply andb_prop in H. destruct H as [Hc _].
  assert (Hm : well_formed (mint_token draw) = true).
  { apply lower_hex_well_formed. rewrite mint_token_eq.
    apply forallb_removelast, hex_digits_lower. }
  unfold resolve_voter_id.
  destruct (dict_get (lit "voter_id") (cookies req)) as [t|] eqn:E;
    [|exact Hm].
  destruct (truthy t); [|exact Hm].
  exact (dict_get_well_formed _ _ _ Hc E).
Qed.

Lemma vote_payload_decodes (voter_id vote : str) :
  well_formed voter_id = true -> well_formed vote = true ->
  json_loads (vote_payload voter_id vote) =
  Some [(lit "voter_id", voter_id); (lit "vote", vote)].
Proof.
  intros H1 H2. apply json_loads_dumps.
  unfold well_formed_dict. cbn [forallb fst snd]. rewrite H1, H2. reflexivity.
Qed.

(** Why the text has to be well formed: two surrogates side by side, which
    decoded UTF-8 never holds, are written as two escapes and read back as
    one character. *)
Example surrogates_are_not_text :
  well_formed [55357; 56832] = false
  /\ json_loads (vote_payload (lit "abc") [55357; 56832]) =
     Some [(lit "voter_id", lit "abc"); (lit "vote", [128512])].
Proof. split; reflexivity. Qed.

(** ** An accepted submission *)

(** C1.  For every POST that carries a ['vote'] field, the handler makes
    exactly one append call, to the list ['votes'], and the payload is a
    JSON object that decodes to the two named fields: ['voter_id'] is the
    resolved identity and ['vote'] the submitted value, both as they
    were.  The request's text is well-formed (decoded from UTF-8). *)
Theorem C1_one_append_with_named_fields (debug : bool)
  (cfg : Config) (req : Request) (draw : N) (st : State) (v : str) :
  method req = POST ->
  dict_get (lit "vote") (form req) = Some v ->
  well_formed_request req = true ->
  let vid := resolve_voter_id (cookies req) draw in
  let payload := vote_payload vid v in
  let decoded := [(lit "voter_id", vid); (lit "vote", v)] in
  rpush_calls (events_since st (snd (dispatch debug cfg req draw st))) =
    [(lit "votes", payload)]
  /\ json_loads payload = Some decoded
  /\ obj_get (lit "voter_id") decoded = Some vid
  /\ obj_get (lit "vote") decoded = Some v.
Proof.
  intros Hm Hv Hwf vid payload decoded. rewrite dispatch_snd.
  split; [exact (hello_post_calls cfg req draw st v Hm Hv)|].
  split; [|split; reflexivity].
  apply vote_payload_decodes.
  - exact (resolve_well_formed req draw Hwf).
  - apply andb_prop in Hwf. destruct Hwf as [_ Hf].
    exact (dict_get_well_formed _ _ _ Hf Hv).
Qed.

Lemma C1_one_append_with_named_fields_witness :
  let req := post_request [(lit "voter_id", lit "abc")]
                          [(lit "vote", [34; 233; 128512; 97])] in
  (method req = POST
   /\ dict_get (lit "vote") (form req) = Some [34; 233; 128512; 97]
   /\ well_formed_request req = true)
  /\ rpush_calls
       (events_since (initial_state [])
          (snd (dispatch false sample_config req 7 (initial_state [])))) =
     [(lit "votes", vote_payload (lit "abc") [34; 233; 128512; 97])].
Proof.
  split; [repeat split|].
  exact (proj1 (C1_one_append_with_named_fields false sample_config
                  (post_request [(lit "voter_id", lit "abc")]
                                [(lit "vote", [34; 233; 128512; 97])])
                  7 (initial_state []) [34; 233; 128512; 97]
                  eq_refl eq_refl eq_refl)).
Defined.

(** The payload for the voter ['abc'] and the choice ['a'], character by
    character (34 is the double quote). *)
Example payload_abc_a :
  vote_payload (lit "abc") (lit "a") =
  lit "{" ++ 34 :: lit "voter_id" ++ 34 :: lit ": " ++ 34 :: lit "abc"
    ++ 34 :: lit ", " ++ 34 :: lit "vote" ++ 34 :: lit ": " ++ 34 :: lit "a"
    ++ 34 :: lit "}".
Proof. reflexivity. Qed.

(** A quote, an accented letter, a character beyond the basic plane and a
    line feed are escaped, and come back. *)
Example payload_escapes :
  json_dumps_str [34; 233; 128512; 10] =
  34 :: 92 :: 34 :: 92 :: lit "u00e9" ++ 92 :: lit "ud83d" ++ 92 :: lit "ude00"
     ++ 92 :: lit "n" ++ [34]
  /\ json_loads (vote_payload (lit "abc") [34; 233; 128512; 10]) =
     Some [(lit "voter_id", lit "abc"); (lit "vote", [34; 233; 128512; 10])].
Proof. split; reflexivity. Qed.

(** ** The model on sample inputs *)

Example py_int_samples :
  py_int ascii_only (lit "6379") = Some 6379%Z
  /\ py_int ascii_only (lit " 6_379 ") = Some 6379%Z
  /\ py_int ascii_only (lit "-1") = Some (-1)%Z
  /\ py_int ascii_only (lit "63x9") = None
  /\ py_int ascii_only (lit "6379_") = None
  /\ py_int ascii_only (lit "0x10") = None
  /\ py_int ascii_only [] = None.
Proof. repeat split. Qed.

Example startup_defaults :
  startup ascii_only [] (lit "vote-1") = Serving sample_config.
Proof. reflexivity. Qed.

Example startup_settings :
  startup ascii_only
    [(lit "REDIS_HOST", lit "cache"); (lit "REDIS_PORT", lit "6380");
     (lit "REDIS_PASSWORD", []); (lit "REDIS_SSL", lit "TRUE")]
    (lit "vote-1")
  = Serving (mkConfig (lit "cache") 6380%Z None true (lit "Cats") (lit "Dogs")
                      (lit "vote-1")).
Proof. reflexivity. Qed.

(** A first POST on a fresh context: the client is constructed, the vote is
    logged and appended, and the page comes back with the cookie. *)
Example first_post :
  let req := post_request [(lit "voter_id", lit "abc")] [(lit "vote", lit "a")] in
  hello sample_config req 7 (initial_state []) =
  (Ok (page_response sample_config (lit "abc") (Some (lit "a"))),
   {| g_redis := Some (mkRedis (redis_kwargs sample_config));
      server := {| status := Up;
                   lists := [(lit "votes",
                              [vote_payload (lit "abc") (lit "a")])] |};
      trace := init_events sample_config
                 ++ vote_events (lit "abc") (lit "a") |}).
Proof. reflexivity. Qed.

(** Two POSTs append two records, each through a client of its own. *)
Example two_posts :
  let req := post_request [(lit "voter_id", lit "abc")] [(lit "vote", lit "a")] in
  let st := snd (serve false sample_config
                   [mkArrival req 7 Up; mkArrival req 9 Up] (initial_state [])) in
  lrange (lit "votes") (lists (server st)) =
    [vote_payload (lit "abc") (lit "a"); vote_payload (lit "abc") (lit "a")]
  /\ constructions (trace st) = 2%nat.
Proof. split; reflexivity. Qed.

(** * Further properties of the module *)

(** ** Requests that only read *)

(** X1.  A GET changes nothing: the context, the server and the trace are
    as before (no client is built, nothing is logged or appended), and the
    answer is the page with status 200, no vote shown and the identity
    cookie. *)
Theorem get_is_read_only (debug : bool)
  (cfg : Config) (req : Request) (draw : N) (st : State) :
  method req = GET ->
  dispatch debug cfg req draw st =
  (page_response cfg (resolve_voter_id (cookies req) draw) None, st).
Proof.
  intros Hm. unfold dispatch. now rewrite (hello_get cfg req draw st Hm).
Qed.

Lemma get_is_read_only_witness :
  method (get_request [(lit "voter_id", lit "abc")]) = GET
  /\ dispatch false sample_config (get_request [(lit "voter_id", lit "abc")]) 7
       (initial_state []) =
     (page_response sample_config (lit "abc") None, initial_state []).
Proof.
  split; [reflexivity|].
  exact (get_is_read_only false sample_config
           (get_request [(lit "voter_id", lit "abc")]) 7 (initial_state [])
           eq_refl).
Defined.

(** ** What a sequence of requests leaves on the server *)

Lemma str_eqb_eq (a b : str) : str_eqb a b = true -> a = b.
Proof.
  revert b. induction a as [|x a IH]; intros [|y b]; simpl;
    try discriminate; [reflexivity|].
  intros H. apply andb_prop in H. destruct H as [Hxy Hab].
  apply N.eqb_eq in Hxy. subst y. f_equal. now apply IH.
Qed.

Lemma lrange_rpush_db_other (key k v : str) (db : list (str * list str)) :
  str_eqb key k = false ->
  lrange key (rpush_db k v db) = lrange key db.
Proof.
  intros Hk. induction db as [|[k0 l] db IH]; simpl.
  - now rewrite Hk.
  - destruct (str_eqb k k0) eqn:E; simpl.
    + apply str_eqb_eq in E. subst k0. now rewrite Hk.
    + destruct (str_eqb key k0); [reflexivity|exact IH].
Qed.

(** The server's lists after one request. *)
Lemma dispatch_lists (debug : bool) (cfg : Config) (a : Arrival) (st : State) :
  lists (server (snd (dispatch debug cfg (arr_request a) (arr_draw a)
                        (set_status (arr_server a) st)))) =
  match stored_payload a with
  | Some p => rpush_db (lit "votes") p (lists (server st))
  | None => lists (server st)
  end.
Proof.
  rewrite dispatch_snd. unfold stored_payload, attempted_payload.
  destruct (method (arr_request a)) eqn:Hm.
  - rewrite (hello_get _ _ _ _ Hm). destruct (arr_server a); reflexivity.
  - destruct (dict_get (lit "vote") (form (arr_request a))) as [v|] eqn:Hv.
    + rewrite (hello_post _ _ _ _ v Hm Hv). simpl.
      destruct (arr_server a); reflexivity.
    + rewrite (hello_post_missing _ _ _ _ Hm Hv). cbn [snd].
      rewrite after_get_redis_server. destruct (arr_server a); reflexivity.
Qed.

Lemma handle_request_lists (debug : bool) (cfg : Config) (a : Arrival)
  (st : State) :
  lists (server (snd (handle_request debug cfg a st))) =
  match stored_payload a with
  | Some p => rpush_db (lit "votes") p (lists (server st))
  | None => lists (server st)
  end.
Proof.
  rewrite handle_request_snd, fresh_context_server, <- (dispatch_snd debug).
  apply (dispatch_lists debug cfg a (fresh_context st)).
Qed.

(** X2.  The ['votes'] list only grows, by one record per stored vote: after
    any sequence of requests it is the list as it was, followed by the
    payloads of the POSTs that carried a vote and met a server that took
    the append, in order of arrival.  Nothing is deduplicated, and a GET,
    a POST without the field and a failed append add nothing. *)
Theorem votes_list_is_append_only (debug : bool)
  (cfg : Config) (arrivals : list Arrival) (st : State) :
  lrange (lit "votes") (lists (server (snd (serve debug cfg arrivals st)))) =
  lrange (lit "votes") (lists (server st)) ++ collect stored_payload arrivals.
Proof.
  revert st. induction arrivals as [|a rest IH]; intros st.
  - simpl. now rewrite app_nil_r.
  - rewrite serve_cons, IH, handle_request_lists. unfold collect.
    cbn [flat_map].
    destruct (stored_payload a) as [p|].
    + rewrite lrange_rpush_db, <- app_assoc. reflexivity.
    + reflexivity.
Qed.

(** X3.  No list but ['votes'] is ever written: whatever requests are
    served, the list under any other key is as it was. *)
Theorem other_lists_untouched (debug : bool)
  (cfg : Config) (arrivals : list Arrival) (st : State) (key : str) :
  str_eqb key (lit "votes") = false ->
  lrange key (lists (server (snd (serve debug cfg arrivals st)))) =
  lrange key (lists (server st)).
Proof.
  intros Hk. revert st. induction arrivals as [|a rest IH]; intros st.
  - reflexivity.
  - rewrite serve_cons, IH, handle_request_lists.
    destruct (stored_payload a) as [p|]; [|reflexivity].
    now apply lrange_rpush_db_other.
Qed.

Lemma other_lists_untouched_witness :
  let post := post_request [(lit "voter_id", lit "abc")] [(lit "vote", lit "a")] in
  let st := initial_state [(lit "tally", [lit "x"])] in
  str_eqb (lit "tally") (lit "votes") = false
  /\ lrange (lit "tally")
       (lists (server (snd (serve false sample_config [mkArrival post 7 Up] st)))) =
     [lit "x"].
Proof.
  split; [reflexivity|].
  exact (other_lists_untouched false sample_config
           [mkArrival (post_request [(lit "voter_id", lit "abc")]
                                    [(lit "vote", lit "a")]) 7 Up]
           (initial_state [(lit "tally", [lit "x"])]) (lit "tally") eq_refl).
Defined.

Lemma set_status_trace (s : ServerStatus) (st : State) :
  trace (set_status s st) = trace st.
Proof. reflexivity. Qed.

Lemma set_status_handle (s : ServerStatus) (st : State) :
  g_redis (set_status s st) = g_redis st.
Proof. reflexivity. Qed.

(** The trace after one request. *)
Lemma dispatch_trace (debug : bool) (cfg : Config) (req : Request) (draw : N) (st : State) :
  trace (snd (dispatch debug cfg req draw st)) =
  trace st
    ++ match method req, g_redis st with
       | POST, None => init_events cfg
       | _, _ => []
       end
    ++ match method req, dict_get (lit "vote") (form req) with
       | POST, Some v => vote_events (resolve_voter_id (cookies req) draw) v
       | _, _ => []
       end.
Proof.
  rewrite dispatch_snd. destruct (method req) eqn:Hm.
  - rewrite (hello_get _ _ _ _ Hm). simpl. now rewrite app_nil_r.
  - destruct (dict_get (lit "vote") (form req)) as [v|] eqn:Hv.
    + rewrite (hello_post_trace _ _ _ _ v Hm Hv).
      destruct (g_redis st); reflexivity.
    + rewrite (hello_post_missing _ _ _ _ Hm Hv). cbn [snd].
      rewrite after_get_redis_trace, app_nil_r.
      destruct (g_redis st); reflexivity.
Qed.

Lemma handle_request_trace (debug : bool) (cfg : Config) (a : Arrival)
  (st : State) :
  trace (snd (handle_request debug cfg a st)) =
  trace st
    ++ (if is_post a then init_events cfg else [])
    ++ match attempted_payload a with
       | Some p =>
           match dict_get (lit "vote") (form (arr_request a)) with
           | Some v => [LogInfo (lit "Received vote for %s") [ArgStr v];
                        RpushCalled (lit "votes") p]
           | None => []
           end
       | None => []
       end.
Proof.
  rewrite handle_request_snd, fresh_context_trace, <- (dispatch_snd debug).
  rewrite dispatch_trace. cbn [g_redis set_status fresh_context trace].
  unfold is_post, attempted_payload, vote_events.
  destruct (method (arr_request a)); [reflexivity|].
  destruct (dict_get (lit "vote") (form (arr_request a))); reflexivity.
Qed.

(** X4.  Every POST that carries a vote is sent to the server exactly once,
    in order of arrival and whatever the server's state: the append calls
    made while serving a sequence of requests are the calls made before,
    followed by one call on ['votes'] per such POST.  A failed append is
    not retried. *)
Theorem one_append_call_per_vote (debug : bool)
  (cfg : Config) (arrivals : list Arrival) (st : State) :
  rpush_calls (trace (snd (serve debug cfg arrivals st))) =
  rpush_calls (trace st)
    ++ List.map (fun p => (lit "votes", p)) (collect attempted_payload arrivals).
Proof.
  revert st. induction arrivals as [|a rest IH]; intros st.
  - simpl. now rewrite app_nil_r.
  - rewrite serve_cons, IH, handle_request_trace.
    rewrite !rpush_calls_app. unfold collect. cbn [flat_map].
    rewrite map_app, <- !app_assoc. f_equal.
    replace (rpush_calls (if is_post a then init_events cfg else []))
      with (@nil (str * str)) by (destruct (is_post a); reflexivity).
    cbn [app]. f_equal.
    destruct (attempted_payload a) as [p|] eqn:E; [|reflexivity].
    unfold attempted_payload in E.
    destruct (method (arr_request a)); [discriminate|].
    destruct (dict_get (lit "vote") (form (arr_request a))); [|discriminate].
    reflexivity.
Qed.

(** ** The client in the context *)

(** X5.  Within a request the client in the context is never dropped or
    replaced, whether the request succeeds or fails: a context that holds
    a handle holds the same handle afterwards, and a context that holds
    none holds the one built from the configuration after a POST and still
    none after a GET. *)
Theorem client_handle_is_stable (debug : bool)
  (cfg : Config) (req : Request) (draw : N) (st : State) :
  g_redis (snd (dispatch debug cfg req draw st)) =
  match g_redis st, method req with
  | Some h, _ => Some h
  | None, POST => Some (mkRedis (redis_kwargs cfg))
  | None, GET => None
  end.
Proof.
  rewrite dispatch_snd, hello_handle.
  destruct (method req); [destruct (g_redis st); reflexivity|].
  rewrite after_get_redis_handle. destruct (g_redis st); reflexivity.
Qed.

(** ** The order of effects *)

(** X6.  A POST with a vote does the same things whatever the server then
    answers: on a context without a client, the construction and its log
    record; then the log record of the vote; then the one append call.
    The vote is logged before it is sent, so a failed append leaves its
    log record behind. *)
Theorem vote_is_logged_then_appended (debug : bool)
  (cfg : Config) (req : Request) (draw : N) (st : State) (v : str) :
  method req = POST ->
  dict_get (lit "vote") (form req) = Some v ->
  events_since st (snd (dispatch debug cfg req draw st)) =
  match g_redis st with Some _ => [] | None => init_events cfg end
    ++ [LogInfo (lit "Received vote for %s") [ArgStr v];
        RpushCalled (lit "votes")
          (vote_payload (resolve_voter_id (cookies req) draw) v)].
Proof.
  intros Hm Hv. apply events_since_app.
  rewrite dispatch_trace, Hm, Hv. reflexivity.
Qed.

Lemma vote_is_logged_then_appended_witness :
  let req := post_request [(lit "voter_id", lit "abc")] [(lit "vote", lit "a")] in
  let st := set_status Refusing (initial_state []) in
  (method req = POST /\ dict_get (lit "vote") (form req) = Some (lit "a"))
  /\ events_since st (snd (dispatch false sample_config req 7 st)) =
     init_events sample_config
       ++ [LogInfo (lit "Received vote for %s") [ArgStr (lit "a")];
           RpushCalled (lit "votes") (vote_payload (lit "abc") (lit "a"))].
Proof.
  split; [split; reflexivity|].
  exact (vote_is_logged_then_appended false sample_config
           (post_request [(lit "voter_id", lit "abc")] [(lit "vote", lit "a")])
           7 (set_status Refusing (initial_state [])) (lit "a")
           eq_refl eq_refl).
Defined.

Lemma log_records_app (a b : list Event) :
  log_records (a ++ b) = log_records a ++ log_records b.
Proof.
  induction a as [|e a IH]; simpl; [reflexivity|].
  destruct e; simpl; now rewrite IH.
Qed.

Lemma serve_logs_agree (debug1 debug2 : bool) (cfg1 cfg2 : Config)
  (arrivals : list Arrival) :
  REDIS_HOST cfg1 = REDIS_HOST cfg2 ->
  REDIS_PORT cfg1 = REDIS_PORT cfg2 ->
  REDIS_SSL cfg1 = REDIS_SSL cfg2 ->
  forall st1 st2 : State,
    log_records (trace st1) = log_records (trace st2) ->
    log_records (trace (snd (serve debug1 cfg1 arrivals st1))) =
    log_records (trace (snd (serve debug2 cfg2 arrivals st2))).
Proof.
  intros Hh Hp Hs. induction arrivals as [|a rest IH]; intros st1 st2 Hl.
  - exact Hl.
  - rewrite !serve_cons. apply IH.
    rewrite !handle_request_trace, !log_records_app, Hl. f_equal. f_equal.
    destruct (is_post a); [|reflexivity].
    unfold init_events. simpl. now rewrite Hh, Hp, Hs.
Qed.

(** X7.  The password never reaches the log: two processes whose
    configurations agree on host, port and TLS flag write the same log
    records for the same requests, whatever their passwords (and their
    option labels and host names) are. *)
Theorem log_is_independent_of_password (debug : bool)
  (cfg1 cfg2 : Config) (arrivals : list Arrival) (db1 db2 : list (str * list str)) :
  REDIS_HOST cfg1 = REDIS_HOST cfg2 ->
  REDIS_PORT cfg1 = REDIS_PORT cfg2 ->
  REDIS_SSL cfg1 = REDIS_SSL cfg2 ->
  log_records (trace (snd (serve debug cfg1 arrivals (initial_state db1)))) =
  log_records (trace (snd (serve debug cfg2 arrivals (initial_state db2)))).
Proof.
  intros Hh Hp Hs.
  now apply (serve_logs_agree debug debug cfg1 cfg2 arrivals Hh Hp Hs).
Qed.

Lemma log_is_independent_of_password_witness :
  let cfg2 := mkConfig (lit "redis") 6379%Z (Some (lit "s3cret")) false
                       (lit "Tea") (lit "Coffee") (lit "vote-2") in
  let post := post_request [] [(lit "vote", lit "a")] in
  (REDIS_HOST sample_config = REDIS_HOST cfg2
   /\ REDIS_PORT sample_config = REDIS_PORT cfg2
   /\ REDIS_SSL sample_config = REDIS_SSL cfg2)
  /\ log_records
       (trace (snd (serve false sample_config [mkArrival post 7 Up] (initial_state [])))) =
     log_records
       (trace (snd (serve false cfg2 [mkArrival post 7 Up] (initial_state [])))).
Proof.
  split; [repeat split|].
  exact (log_is_independent_of_password false sample_config
           (mkConfig (lit "redis") 6379%Z (Some (lit "s3cret")) false
                     (lit "Tea") (lit "Coffee") (lit "vote-2"))
           [mkArrival (post_request [] [(lit "vote", lit "a")]) 7 Up] [] []
           eq_refl eq_refl eq_refl).
Defined.

(** ** The token, digit by digit *)

Lemma mint_token_high_bits (draw : N) :
  mint_token draw = if draw <? 16 then [] else hex_digits (draw / 16).
Proof.
  rewrite mint_token_eq. destruct (N.ltb_spec draw 16) as [H|H].
  - now rewrite (hex_digits_small draw H).
  - rewrite (hex_digits_step draw H). apply removelast_last.
Qed.

(** X8.  The slice cuts the last hexadecimal digit of the draw: the minted
    token is empty for a draw below sixteen and otherwise is [hex]'s
    rendering of the draw divided by sixteen.  The low four bits of the
    draw never reach the token. *)
Theorem minted_token_is_hex_of_high_bits (draw : N) :
  mint_token draw = if draw <? 16 then [] else hex_digits (draw / 16).
Proof. exact (mint_token_high_bits draw). Qed.

Lemma hex_digits_inj (a b : N) : hex_digits a = hex_digits b -> a = b.
Proof.
  intros H. pose proof (hex_digits_value a) as Ha.
  rewrite H, hex_digits_value in Ha. now injection Ha.
Qed.

Lemma hex_digits_not_nil (n : N) : hex_digits n <> [].
Proof.
  unfold hex_digits. cbn [hex_digits_fuel].
  destruct (n / 16 =? 0); [discriminate|].
  rewrite hex_digits_fuel_acc. intros E. apply app_eq_nil in E.
  destruct E as [_ E]. discriminate.
Qed.

(** X9.  Two draws mint the same token exactly when they agree above their
    low four bits: sixteen draws share every token. *)
Theorem tokens_agree_iff_high_bits_agree (draw1 draw2 : N) :
  mint_token draw1 = mint_token draw2 <-> draw1 / 16 = draw2 / 16.
Proof.
  rewrite !mint_token_high_bits.
  destruct (N.ltb_spec draw1 16) as [H1|H1], (N.ltb_spec draw2 16) as [H2|H2].
  - rewrite !N.div_small by assumption. split; reflexivity.
  - rewrite (N.div_small draw1 16 H1). split.
    + intros E. symmetry in E. now apply hex_digits_not_nil in E.
    + intros E. symmetry in E. apply N.div_small_iff in E; lia.
  - rewrite (N.div_small draw2 16 H2). split.
    + intros E. now apply hex_digits_not_nil in E.
    + intros E. apply N.div_small_iff in E; lia.
  - split; [apply hex_digits_inj|now intros ->].
Qed.

(** ** The cookie, sent back *)

(** X10.  A client that sends back the cookie it was given is recognised:
    the next request resolves to the same identity, whatever the random
    draw then is.  The exception is the empty identity (minted from a draw
    below sixteen): the empty cookie counts as no token, and the next
    request mints a new one. *)
Theorem returned_cookie_is_recognised (debug : bool)
  (cfg : Config) (req : Request) (draw draw' : N) (st : State) :
  returns_page req st = true ->
  let vid := resolve_voter_id (cookies req) draw in
  resolve_voter_id (set_cookies (fst (dispatch debug cfg req draw st))) draw' =
  match vid with
  | [] => mint_token draw'
  | _ :: _ => vid
  end.
Proof.
  intros H vid. rewrite (dispatch_returns debug cfg req draw st H).
  cbn [set_cookies page_response]. fold vid.
  unfold resolve_voter_id at 1. cbn [dict_get].
  rewrite str_eqb_refl. destruct vid; reflexivity.
Qed.

Lemma returned_cookie_is_recognised_witness :
  let req := get_request [] in
  returns_page req (initial_state []) = true
  /\ resolve_voter_id
       (set_cookies (fst (dispatch false sample_config req 255 (initial_state []))))
       4242 = lit "f".
Proof.
  split; [reflexivity|].
  exact (returned_cookie_is_recognised false sample_config (get_request []) 255 4242
           (initial_state []) eq_refl).
Defined.

(** ** The payload as text *)

Lemma lower_hex_printable (c : N) :
  is_lower_hex c = true -> is_printable c = true.
Proof.
  unfold is_lower_hex, is_printable. intros H. apply orb_prop in H.
  destruct H as [H|H]; apply andb_prop in H; destruct H as [H1 H2];
    apply N.leb_le in H1, H2; apply andb_true_intro;
    split; apply N.leb_le; lia.
Qed.

Lemma hexdigit_printable (n : N) : is_printable (hexdigit (n mod 16)) = true.
Proof. apply lower_hex_printable, hexdigit_lower_hex, mod16_lt. Qed.

Lemma u_escape_printable (n : N) : forallb is_printable (u_escape n) = true.
Proof.
  unfold u_escape, hex4. cbn [forallb].
  rewrite !hexdigit_printable. reflexivity.
Qed.

Lemma escape_char_printable (c : N) :
  forallb is_printable (escape_char c) = true.
Proof.
  unfold escape_char.
  repeat match goal with
         | |- context [if ?x =? ?y then _ else _] =>
             destruct (x =? y); [reflexivity|]
         end.
  destruct ((32 <=? c) && (c <=? 126)) eqn:E.
  - cbn [forallb]. unfold is_printable. now rewrite E.
  - destruct (c <? 65536); [apply u_escape_printable|].
    cbv zeta. rewrite forallb_app, !u_escape_printable. reflexivity.
Qed.

Lemma json_dumps_str_printable (s : str) :
  forallb is_printable (json_dumps_str s) = true.
Proof.
  unfold json_dumps_str. cbn [forallb]. rewrite forallb_app.
  cbn [forallb]. change (is_printable 34) with true.
  rewrite andb_true_r. cbn [andb].
  induction s as [|c s IH]; [reflexivity|].
  cbn [flat_map]. now rewrite forallb_app, escape_char_printable, IH.
Qed.

(** X11.  The payload is plain printable ASCII, whatever text the cookie
    and the form bring: every character of it lies between the space and
    the tilde. *)
Theorem payload_is_printable_ascii (voter_id vote : str) :
  forallb is_printable (vote_payload voter_id vote) = true.
Proof.
  unfold vote_payload, json_dumps_dict. cbn [List.map json_join json_item fst snd].
  cbn [forallb]. rewrite !forallb_app. unfold json_item. cbn [fst snd].
  rewrite !forallb_app, !json_dumps_str_printable. reflexivity.
Qed.

(** X12.  Distinct votes have distinct payloads: for well-formed text, the
    payload determines both the identity and the choice, so no value of
    one field can pass for another record. *)
Theorem payload_determines_vote (id1 vote1 id2 vote2 : str) :
  well_formed id1 = true -> well_formed vote1 = true ->
  well_formed id2 = true -> well_formed vote2 = true ->
  vote_payload id1 vote1 = vote_payload id2 vote2 ->
  id1 = id2 /\ vote1 = vote2.
Proof.
  intros H1 H2 H3 H4 E.
  pose proof (vote_payload_decodes id1 vote1 H1 H2) as D1.
  rewrite E, (vote_payload_decodes id2 vote2 H3 H4) in D1.
  injection D1 as -> ->. split; reflexivity.
Qed.

Lemma payload_determines_vote_witness :
  (well_formed (lit "abc") = true /\ well_formed (lit "a") = true
   /\ vote_payload (lit "abc") (lit "a") = vote_payload (lit "abc") (lit "a"))
  /\ lit "abc" = lit "abc" /\ lit "a" = lit "a".
Proof.
  split; [repeat split|].
  exact (payload_determines_vote (lit "abc") (lit "a") (lit "abc") (lit "a")
           eq_refl eq_refl eq_refl eq_refl eq_refl).
Defined.

(** ** From the environment to the client *)





Lemma tokens_agree_iff_high_bits_agree_witness :
  4080 / 16 = 4095 / 16 /\ mint_token 4080 = mint_token 4095.
Proof.
  split; [reflexivity|].
  exact (proj2 (tokens_agree_iff_high_bits_agree 4080 4095) eq_refl).
Defined.

(** Under the launcher of lines 68-69 the missing field is answered with
    status 500; when a WSGI server imports the module, with 400. *)
Example missing_vote_under_main :
  let req := post_request [(lit "voter_id", lit "abc")] [] in
  status_code (fst (dispatch main_debug sample_config req 7 (initial_state [])))
    = 500
  /\ status_code (fst (dispatch false sample_config req 7 (initial_state [])))
     = 400.
Proof. split; reflexivity. Qed.

(** A port of 4300 digits converts; one digit more and start-up fails. *)
Example port_digit_limit :
  py_int ascii_only (repeat 49 4300) <> None
  /\ py_int ascii_only (repeat 49 4301) = None
  /\ startup ascii_only [(lit "REDIS_PORT", repeat 49 4301)] (lit "vote-1")
     = Crashed ValueError.
Proof.
  split; [|split]; vm_compute; [discriminate|reflexivity|reflexivity].
Qed.
